(** * SkyLifeguard: the class-invariant engine of [LifeContracts]

    A shallow embedding of [Debug::CheckClassInvariants]
    (Source/SkyLifeguard/Private/LifeContracts.cpp) and of the helpers of
    Source/SkyLifeguard/Public/LifeContracts.h, together with the properties
    the specification states about them.

    Layout: the string layer the engine relies on ([FChar], [FString],
    [FCString]), the reflected object model ([FProperty], [UFunction],
    [UObject]), the failure sites and the checking monad, the engine itself,
    and then the theorems. *)

From Stdlib Require Import ZArith List Bool Lia.
From Stdlib Require Import Strings.String Strings.Ascii.
From Stdlib Require Import Floats.
Import ListNotations.

Local Open Scope string_scope.
Local Open Scope Z_scope.

(* ================================================================= *)
(** ** Characters and strings of the host engine *)

(** The engine's [FChar] helpers, on the 8-bit characters of [ascii]. *)
Module FChar.

Definition code (c : ascii) : N := N_of_ascii c.

(** [FChar::IsWhitespace]: space and the control characters
    tab, line feed, vertical tab, form feed, carriage return. *)
Definition IsWhitespace (c : ascii) : bool :=
  (N.eqb (code c) 32 || (N.leb 9 (code c) && N.leb (code c) 13))%bool.

(** [FChar::IsDigit]: the decimal digits. *)
Definition IsDigit (c : ascii) : bool :=
  (N.leb 48 (code c) && N.leb (code c) 57)%bool.

Definition IsUpper (c : ascii) : bool :=
  (N.leb 65 (code c) && N.leb (code c) 90)%bool.

(** [FChar::ToLower]. *)
Definition ToLower (c : ascii) : ascii :=
  if IsUpper c then ascii_of_N (code c + 32) else c.

(** The value of a decimal digit. *)
Definition DigitValue (c : ascii) : Z := Z.of_N (code c) - 48.

End FChar.

(** The operations of the engine's [FString] that the contract code calls.
    The engine compares strings ignoring letter case by default: that is the
    documented behaviour of [operator==], of [StartsWith] and of [Contains]
    when no [ESearchCase] argument is given, as is the case at every call
    site of LifeContracts.cpp. *)
Module FString.

Definition Len (s : string) : nat := String.length s.

Definition IsEmpty (s : string) : bool :=
  match s with EmptyString => true | _ => false end.

Fixpoint ToLower (s : string) : string :=
  match s with
  | EmptyString => EmptyString
  | String c r => String (FChar.ToLower c) (ToLower r)
  end.

(** [operator==(const FString&, const TCHAR* )]: equality up to case. *)
Definition Equals (a b : string) : bool :=
  String.eqb (ToLower a) (ToLower b).

Fixpoint IsPrefix (pre s : string) : bool :=
  match pre with
  | EmptyString => true
  | String a pre' =>
      match s with
      | EmptyString => false
      | String b s' => (Ascii.eqb a b && IsPrefix pre' s')%bool
      end
  end.

(** [StartsWith(Prefix)], with its default [ESearchCase::IgnoreCase]. *)
Definition StartsWith (s pre : string) : bool :=
  IsPrefix (ToLower pre) (ToLower s).

(** [Mid(Start)]: the text from index [Start] on. *)
Definition Mid (s : string) (start : nat) : string :=
  String.substring start (String.length s - start) s.

(** [Mid(Start, Count)]. *)
Definition MidCount (s : string) (start count : nat) : string :=
  String.substring start (Nat.min count (String.length s - start)) s.

(** [operator[]] on an index the caller has checked; the zero character
    stands for an index out of range. *)
Definition At (s : string) (i : nat) : ascii :=
  match String.get i s with Some c => c | None => Ascii.zero end.

Fixpoint TrimStart (s : string) : string :=
  match s with
  | EmptyString => EmptyString
  | String c r => if FChar.IsWhitespace c then TrimStart r else s
  end.

Fixpoint TrimEnd (s : string) : string :=
  match s with
  | EmptyString => EmptyString
  | String c r =>
      match TrimEnd r with
      | EmptyString => if FChar.IsWhitespace c then EmptyString
                       else String c EmptyString
      | t => String c t
      end
  end.

Definition TrimStartAndEnd (s : string) : string := TrimEnd (TrimStart s).

(** [Contains(Sub)] for a one-character [Sub], ignoring case. *)
Fixpoint ContainsChar (s : string) (c : ascii) : bool :=
  match s with
  | EmptyString => false
  | String d r =>
      (Ascii.eqb (FChar.ToLower d) (FChar.ToLower c) || ContainsChar r c)%bool
  end.

(** The pieces of [s] between occurrences of [delim], empty ones kept. *)
Fixpoint SplitOn (delim : ascii) (cur : string) (s : string) : list string :=
  match s with
  | EmptyString => [cur]
  | String c r =>
      if Ascii.eqb c delim
      then cur :: SplitOn delim EmptyString r
      else SplitOn delim (cur ++ String c EmptyString) r
  end.

(** [ParseIntoArray(Out, Delim, /*InCullEmpty=*/true)] for a one-character
    delimiter: the non-empty pieces, in order. *)
Definition ParseIntoArray (s : string) (delim : ascii) : list string :=
  filter (fun p => negb (IsEmpty p)) (SplitOn delim EmptyString s).

End FString.

(* ================================================================= *)
(** ** Numeric conversions of the C runtime, as [FCString] exposes them *)

Module FCString.

Definition INT64_MIN : Z := - 2 ^ 63.
Definition INT64_MAX : Z := 2 ^ 63 - 1.
Definition UINT64_MAX : Z := 2 ^ 64 - 1.

Fixpoint SkipSpace (s : string) : string :=
  match s with
  | String c r => if FChar.IsWhitespace c then SkipSpace r else s
  | EmptyString => EmptyString
  end.

(** An optional sign: [true] for a minus. *)
Definition TakeSign (s : string) : bool * string :=
  match s with
  | String "-"%char r => (true, r)
  | String "+"%char r => (false, r)
  | _ => (false, s)
  end.

(** The longest run of decimal digits at the head of [s]: how many there
    are, their value after the accumulator [acc], and the rest. *)
Fixpoint TakeDigits (s : string) (acc : Z) (n : nat) : Z * nat * string :=
  match s with
  | String c r =>
      if FChar.IsDigit c
      then TakeDigits r (10 * acc + FChar.DigitValue c) (S n)
      else (acc, n, s)
  | EmptyString => (acc, n, s)
  end.

(** [Atoi64], that is [strtoll(s, nullptr, 10)]: white space, an optional
    sign, digits; zero when there is no digit; the result saturates at the
    ends of the signed 64-bit range. *)
Definition Atoi64 (s : string) : Z :=
  let '(neg, r) := TakeSign (SkipSpace s) in
  let '(mag, _, _) := TakeDigits r 0 0 in
  let v := if neg then - mag else mag in
  Z.max INT64_MIN (Z.min INT64_MAX v).

(** [Strtoui64(s, nullptr, 10)], that is [strtoull]: the magnitude
    saturates at the largest unsigned value, and a minus sign negates the
    converted value in the unsigned type. *)
Definition Strtoui64 (s : string) : Z :=
  let '(neg, r) := TakeSign (SkipSpace s) in
  let '(mag, _, _) := TakeDigits r 0 0 in
  if UINT64_MAX <? mag then UINT64_MAX
  else if neg then (- mag) mod 2 ^ 64 else mag.

(** The binary64 value nearest to [(-1)^neg * m * 10^e10], ties to even:
    an integer is rounded directly, a proper fraction through the
    correctly rounded quotient of two integers. *)
Definition DecimalToDouble (neg : bool) (m e10 : Z) : float :=
  match m with
  | Zpos p =>
      if 0 <=? e10
      then SF2Prim (binary_normalize prec emax
                      (if neg then - (m * 10 ^ e10) else m * 10 ^ e10) 0 neg)
      else SF2Prim (SFdiv prec emax
                      (S754_finite neg p 0)
                      (S754_finite false (Z.to_pos (10 ^ (- e10))) 0))
  | _ => if neg then neg_zero else zero
  end.

(** The exponent part of a decimal literal: [e] or [E], an optional sign
    and at least one digit; anything else is no exponent at all. *)
Definition TakeExponent (s : string) : Z :=
  match s with
  | String c r =>
      if Ascii.eqb (FChar.ToLower c) "e"%char
      then let '(neg, r1) := TakeSign r in
           let '(e, n, _) := TakeDigits r1 0 0 in
           match n with
           | O => 0
           | _ => if neg then - e else e
           end
      else 0
  | EmptyString => 0
  end.

(** [Atod], that is [strtod] on a decimal literal: white space, an optional
    sign, digits with an optional decimal point, an optional exponent;
    zero when no digit is found. (The hexadecimal, infinity and NaN forms
    of [strtod] need letters the range sanitizer never lets through.) *)
Definition Atod (s : string) : float :=
  let '(neg, r) := TakeSign (SkipSpace s) in
  let '(ip, n1, r1) := TakeDigits r 0 0 in
  let '(m, n2, r2) :=
    match r1 with
    | String "."%char r' => TakeDigits r' ip 0
    | _ => (ip, O, r1)
    end in
  match (n1 + n2)%nat with
  | O => zero
  | _ => DecimalToDouble neg m (TakeExponent r2 - Z.of_nat n2)
  end.

End FCString.

(* ================================================================= *)
(** ** Machine integers *)

(** The eight integer types a reflected integer property can have. *)
Inductive IntType : Type :=
| Int8 | Int16 | Int32 | Int64 | UInt8 | UInt16 | UInt32 | UInt64.

Definition is_signed (t : IntType) : bool :=
  match t with
  | Int8 | Int16 | Int32 | Int64 => true
  | UInt8 | UInt16 | UInt32 | UInt64 => false
  end.

Definition bits (t : IntType) : Z :=
  match t with
  | Int8 | UInt8 => 8
  | Int16 | UInt16 => 16
  | Int32 | UInt32 => 32
  | Int64 | UInt64 => 64
  end.

(** [static_cast<T>(z)]: the value of [z] modulo [2^bits], read in [T]. *)
Definition static_cast (t : IntType) (z : Z) : Z :=
  let m := 2 ^ bits t in
  if is_signed t
  then (z + m / 2) mod m - m / 2
  else z mod m.

(** The usual arithmetic conversions bring an [int] constant [c] compared
    with a [T] to the common type: [unsigned] and [unsigned long long] when
    [T] is one of them, and otherwise a signed type that keeps both. *)
Definition int_constant_as (t : IntType) (c : Z) : Z :=
  match t with
  | UInt32 | UInt64 => static_cast t c
  | _ => c
  end.

Definition INDEX_NONE : Z := -1.

(* ================================================================= *)
(** ** The reflected object model *)

(** Objects live in a heap and are named by their index in it; a raw
    [UObject*] is [None] when it is [nullptr]. *)
Definition ObjId : Type := nat.
Definition ObjectPtr : Type := option ObjId.

(** A class is identified by its name, which is also what [GetName] gives. *)
Definition UClass : Type := string.

(** The reflected description of a property: one constructor for each
    property class the contract code casts to, with the inner properties of
    the containers. [FStrProperty] stands for the property classes the code
    never casts to. *)
Inductive FProperty : Type :=
| FInt8Property | FInt16Property | FIntProperty | FInt64Property
| FByteProperty | FUInt16Property | FUInt32Property | FUInt64Property
| FFloatProperty | FDoubleProperty
| FBoolProperty
| FNameProperty
| FStrProperty
| FObjectProperty (PropertyClass : UClass)
| FClassProperty
| FWeakObjectProperty
| FSoftObjectProperty
| FSoftClassProperty
| FInterfaceProperty
| FArrayProperty (Inner : FProperty)
| FSetProperty (ElementProp : FProperty)
| FMapProperty (KeyProp ValueProp : FProperty)
| FOptionalProperty (ValueProperty : FProperty).

(** [FName]: a name is its text, and the reserved [NAME_None] is the name
    whose text is "None". *)
Definition FName : Type := string.
Definition IsNone (n : FName) : bool := FString.Equals n "None".

(** [FWeakObjectPtr]: the object it was set to, if any. *)
Record FWeakObjectPtr : Type := { WeakTarget : ObjectPtr }.

(** [FSoftObjectPtr]: the path it names ([ObjectID], empty for the null
    path) and the object that path resolves to at present, if it is loaded. *)
Record FSoftObjectPtr : Type :=
  { ObjectID : string;
    Resolved : ObjectPtr }.

(** [FScriptInterface]: the object behind the interface handle. *)
Record FScriptInterface : Type := { GetObject : ObjectPtr }.

(** The values a property of each shape holds. A set or a map is its
    sparse array of slots, [None] being a free slot ([IsValidIndex] false);
    an optional is [None] when it is not set. *)
Fixpoint ValueOf (P : FProperty) : Type :=
  match P with
  | FInt8Property | FInt16Property | FIntProperty | FInt64Property
  | FByteProperty | FUInt16Property | FUInt32Property | FUInt64Property => Z
  | FFloatProperty | FDoubleProperty => float
  | FBoolProperty => bool
  | FNameProperty => FName
  | FStrProperty => string
  | FObjectProperty _ | FClassProperty => ObjectPtr
  | FWeakObjectProperty => FWeakObjectPtr
  | FSoftObjectProperty | FSoftClassProperty => FSoftObjectPtr
  | FInterfaceProperty => FScriptInterface
  | FArrayProperty Inner => list (ValueOf Inner)
  | FSetProperty ElementProp => list (option (ValueOf ElementProp))
  | FMapProperty KeyProp ValueProp =>
      list (option (ValueOf KeyProp * ValueOf ValueProp))
  | FOptionalProperty ValueProperty => option (ValueOf ValueProperty)
  end.

(** A property as the field iterator yields it for one object: its name,
    its "Invariant" metadata ([None] when [HasMetaData] is false), its
    shape, and the value stored at [ContainerPtrToValuePtr(Object)]. *)
Record Field : Type :=
  { GetName : string;
    Invariant : option string;
    Property : FProperty;
    Value : ValueOf Property }.

(** A reflected function, with what a call through [ProcessEvent] leaves in
    its return slot on the object at hand. [NumParms] counts the return
    value, as the engine does. *)
Record UFunction : Type :=
  { FuncName : string;
    HasInvariant : bool;
    FUNC_Const : bool;
    NumParms : nat;
    GetReturnProperty : option FProperty;
    Returns : bool }.

(** An object: its class, the properties and functions of that class (those
    of the super classes included, as the iterators give them), and whether
    the object has been marked as garbage. *)
Record UObject : Type :=
  { GetClass : UClass;
    Fields : list Field;
    Functions : list UFunction;
    Garbage : bool }.

Definition Heap : Type := list UObject.

Definition Deref (h : Heap) (p : ObjectPtr) : option UObject :=
  match p with
  | Some i => nth_error h i
  | None => None
  end.

(** The global [IsValid(const UObject* )]: not null and not garbage. *)
Definition IsValid (h : Heap) (p : ObjectPtr) : bool :=
  match Deref h p with
  | Some o => negb (Garbage o)
  | None => false
  end.

Definition IsNullptr (p : ObjectPtr) : bool :=
  match p with None => true | Some _ => false end.

(** [FWeakObjectPtr::IsValid], which is also what comparing a weak pointer
    with [nullptr] tests: the target is still a live object. *)
Definition Weak_IsValid (h : Heap) (w : FWeakObjectPtr) : bool :=
  IsValid h (WeakTarget w).

(** [FSoftObjectPtr::IsNull]: the pointer names no path at all. *)
Definition Soft_IsNull (s : FSoftObjectPtr) : bool :=
  FString.IsEmpty (ObjectID s).

(** [FSoftObjectPtr::Get]: the live object the path resolves to. *)
Definition Soft_Get (h : Heap) (s : FSoftObjectPtr) : ObjectPtr :=
  if Soft_IsNull s then None
  else if IsValid h (Resolved s) then Resolved s else None.

(** [operator!=(TYPE_OF_NULLPTR)] of the engine's persistent object
    pointers, the base of [FSoftObjectPtr]: it is [IsValid()], that is
    [Get() != nullptr]. *)
Definition Soft_NotNullptr (h : Heap) (s : FSoftObjectPtr) : bool :=
  negb (IsNullptr (Soft_Get h s)).

(** [FOptionalProperty::GetValuePointerForRead]: the address of the value
    of an optional, called once the optional is known to be set; it is not
    [nullptr] then. *)
Definition GetValuePointerForRead {A : Type} (o : option A) : option A := o.

Definition IsSet {A : Type} (o : option A) : bool :=
  match o with Some _ => true | None => false end.

(** The integer type behind each integer property class. *)
Definition IntTypeOf (P : FProperty) : option IntType :=
  match P with
  | FInt8Property => Some Int8
  | FInt16Property => Some Int16
  | FIntProperty => Some Int32
  | FInt64Property => Some Int64
  | FByteProperty => Some UInt8
  | FUInt16Property => Some UInt16
  | FUInt32Property => Some UInt32
  | FUInt64Property => Some UInt64
  | _ => None
  end.

Definition IsIntegerProperty (P : FProperty) : bool :=
  match IntTypeOf P with Some _ => true | None => false end.

Definition IsFloatProperty (P : FProperty) : bool :=
  match P with
  | FFloatProperty | FDoubleProperty => true
  | _ => false
  end.

(* ================================================================= *)
(** ** Failures and the checking monad *)

(** The two tiers of section 7 of the specification. *)
Inductive Tier : Type := ConfigurationError | DataViolation.

(** One constructor for each [checkf] of the contract code; [message] gives
    the text the assertion carries. *)
Inductive Failure : Type :=
| Precondition
| Violation (rule cls prop : string)
| ContainerViolation (cls prop : string)
| UsedOnNon (rule what cls prop : string)
| NoEntry
| RangeFormat (cls prop : string)
| RangeBoundCount (cls prop : string)
| RangeIntegerBounds (cls prop : string)
| RangeBoundOrder
| RangeBoundOrderOn (cls prop : string)
| RangeNonArithmetic (cls prop : string)
| RangeViolation (cls prop : string)
| SameClassContract
| FunctionNotFound (rule : string)
| FunctionNotConst (rule : string)
| FunctionParams (rule : string)
| FunctionReturn (rule : string)
| CustomCheckFailed (cls prop rule : string)
| MethodNotConst (fn cls : string)
| MethodParams (fn cls : string)
| MethodReturn (fn cls : string)
| MethodFailed (fn cls : string).

Definition on_ (cls prop : string) : string := " on " ++ cls ++ "::" ++ prop.

Definition message (f : Failure) : string :=
  match f with
  | Precondition => "Contract violation (Precondition): [Object]"
  | Violation rule cls prop =>
      "Invariant=" ++ rule ++ " violation" ++ on_ cls prop
  | ContainerViolation cls prop =>
      "Invariant=MemSafeContainer violation" ++ on_ cls prop
      ++ " (container has null/invalid pointer element)"
  | UsedOnNon rule what cls prop =>
      "Invariant=" ++ rule ++ " used on non-" ++ what ++ " property "
      ++ cls ++ "::" ++ prop
  | NoEntry => "Enclosing block should never be called"
  | RangeFormat cls prop => "Invalid Range invariant format" ++ on_ cls prop
  | RangeBoundCount cls prop =>
      "Range invariant must contain two comma-separated bounds" ++ on_ cls prop
  | RangeIntegerBounds cls prop =>
      "Range invariant for integer property must use integer bounds"
      ++ on_ cls prop
  | RangeBoundOrder => "Range invariant lower bound must be <= upper bound"
  | RangeBoundOrderOn cls prop =>
      "Range invariant lower bound must be <= upper bound" ++ on_ cls prop
  | RangeNonArithmetic cls prop =>
      "Range invariant used on non-arithmetic property " ++ cls ++ "::" ++ prop
  | RangeViolation cls prop => "Range invariant violation" ++ on_ cls prop
  | SameClassContract =>
      "Contract violation (An object cannot contain an invariant member of "
      ++ "the same class, as that would imply an infinite loop of "
      ++ "invariants): [Value->GetClass() != Object->GetClass()]"
  | FunctionNotFound rule => "Invariant function '" ++ rule ++ "' not found."
  | FunctionNotConst rule =>
      "Invariant function '" ++ rule ++ "' must be const."
  | FunctionParams rule =>
      "Invariant function '" ++ rule
      ++ "' must have exactly one return value (bool) and no parameters."
  | FunctionReturn rule =>
      "Invariant function '" ++ rule ++ "' must return a bool."
  | CustomCheckFailed cls prop rule =>
      "Invariant violation" ++ on_ cls prop ++ ". Custom check '" ++ rule
      ++ "' failed."
  | MethodNotConst fn cls =>
      "Invariant function '" ++ fn ++ "' on class '" ++ cls
      ++ "' must be const."
  | MethodParams fn cls =>
      "Invariant function '" ++ fn ++ "' on class '" ++ cls
      ++ "' must have no parameters and return a bool."
  | MethodReturn fn cls =>
      "Invariant function '" ++ fn ++ "' on class '" ++ cls
      ++ "' must return a bool."
  | MethodFailed fn cls =>
      "Invariant violation: Custom check function '" ++ fn ++ "' on class '"
      ++ cls ++ "' failed."
  end.

(** The tier each assertion belongs to: those that report a value failing
    its rule are data violations, those that report a rule misapplied or
    malformed are configuration errors. *)
Definition tier (f : Failure) : Tier :=
  match f with
  | Violation _ _ _ | ContainerViolation _ _ | RangeViolation _ _
  | CustomCheckFailed _ _ _ | MethodFailed _ _ => DataViolation
  | _ => ConfigurationError
  end.

(** How a pass can end early: a failed assertion, an access through a null
    or dangling pointer (undefined behaviour in the source, a crash in
    practice), or the recursion budget running out. *)
Inductive Abort : Type :=
| Fatal (f : Failure)
| InvalidDereference
| OutOfFuel.

(** The functions called through [ProcessEvent], most recent first. *)
Definition CallLog : Type := list (UObject * UFunction).

Inductive Res (A : Type) : Type :=
| Done (a : A) (log : CallLog)
| Stop (e : Abort) (log : CallLog).
Arguments Done {A} a log.
Arguments Stop {A} e log.

Definition Check (A : Type) : Type := CallLog -> Res A.

Definition ret {A : Type} (a : A) : Check A := fun log => Done a log.

Definition bind {A B : Type} (c : Check A) (k : A -> Check B) : Check B :=
  fun log =>
    match c log with
    | Done a log' => k a log'
    | Stop e log' => Stop e log'
    end.

Definition abort {A : Type} (e : Abort) : Check A := fun log => Stop e log.

Definition fatal {A : Type} (f : Failure) : Check A := abort (Fatal f).

(** [checkf(Cond, Message)]. *)
Definition checkf (cond : bool) (f : Failure) : Check unit :=
  if cond then ret tt else fatal f.

(** [Object->ProcessEvent(Function, Params)] followed by reading the
    return slot. *)
Definition ProcessEvent (Obj : UObject) (F : UFunction) : Check bool :=
  fun log => Done (Returns F) ((Obj, F) :: log).

Declare Scope check_scope.
Delimit Scope check_scope with check.
Notation "x <- c ;; k" := (bind c (fun x => k))
  (at level 61, c at next level, right associativity) : check_scope.
Notation "c ;; k" := (bind c (fun _ => k))
  (at level 61, right associativity) : check_scope.
Local Open Scope check_scope.

(* ================================================================= *)
(** ** The helpers of LifeContracts.h and LifeContracts.cpp *)

(** [CastField] follows the engine's property hierarchy: a class property
    is an object property and a soft class property is a soft object
    property, so each is caught by the earlier cast of its base. The arms
    below are in the order of the source's casts. *)

(** [IsPointerPropertyValueValid]. *)
Definition IsPointerPropertyValueValid (h : Heap) (ElementProperty : FProperty)
  : ValueOf ElementProperty -> bool :=
  match ElementProperty return ValueOf ElementProperty -> bool with
  | FObjectProperty _ | FClassProperty => fun v => negb (IsNullptr v)
  | FWeakObjectProperty => fun v => Weak_IsValid h v
  | FSoftObjectProperty | FSoftClassProperty => fun v => negb (Soft_IsNull v)
  | FInterfaceProperty => fun v => negb (IsNullptr (GetObject v))
  | _ => fun _ => true
  end.

(** [IsPointerLikeProperty]. *)
Definition IsPointerLikeProperty (P : FProperty) : bool :=
  match P with
  | FObjectProperty _ | FWeakObjectProperty | FSoftObjectProperty
  | FSoftClassProperty | FClassProperty | FInterfaceProperty => true
  | _ => false
  end.

(** [FScriptSetHelper::Num] and [FScriptMapHelper::Num]: the number of
    elements the container holds, that is the number of its slots that are
    in use; the number of slots is [GetMaxIndex]. *)
Definition HelperNum {A : Type} (slots : list (option A)) : nat :=
  List.length (filter IsSet slots).

(** The slots the loops [for (int32 i = 0; i < Helper.Num(); ++i)] of the
    set and map arms visit: those of index below [Num()]. *)
Definition VisitedSlots {A : Type} (slots : list (option A))
  : list (option A) :=
  firstn (HelperNum slots) slots.

(** [ValidateMemSafeContainer]: [true] if valid, [false] if an element is an
    invalid pointer or the property is no recognised container. In the set
    and map arms a slot for which [IsValidIndex] is false is passed over. *)
Definition ValidateMemSafeContainer (h : Heap) (P : FProperty)
  : ValueOf P -> bool :=
  match P return ValueOf P -> bool with
  | FArrayProperty InnerProp => fun arr =>
      if negb (IsPointerLikeProperty InnerProp) then true
      else forallb (IsPointerPropertyValueValid h InnerProp) arr
  | FSetProperty ElementProp => fun slots =>
      if negb (IsPointerLikeProperty ElementProp) then true
      else forallb (fun slot =>
                      match slot with
                      | Some e => IsPointerPropertyValueValid h ElementProp e
                      | None => true
                      end) (VisitedSlots slots)
  | FMapProperty KeyProp ValueProp => fun slots =>
      let bKeyIsPointer := IsPointerLikeProperty KeyProp in
      let bValueIsPointer := IsPointerLikeProperty ValueProp in
      if negb bKeyIsPointer && negb bValueIsPointer then true
      else forallb (fun slot =>
                      match slot with
                      | Some (k, v) =>
                          (if bKeyIsPointer
                           then IsPointerPropertyValueValid h KeyProp k
                           else true)
                          && (if bValueIsPointer
                              then IsPointerPropertyValueValid h ValueProp v
                              else true)
                      | None => true
                      end) (VisitedSlots slots)
  | FOptionalProperty ValueProperty => fun opt =>
      let bIsSet := IsSet opt in
      if negb bIsSet then true
      else if negb (IsPointerLikeProperty ValueProperty) then true
      else match GetValuePointerForRead opt with
           | None => false
           | Some _ => true
           end
  | _ => fun _ => false
  end.

(** A generic predicate is instantiated at the integer type of the
    property, and carries the assertions its body makes. *)
Definition IntPredicate : Type := IntType -> Z -> Check bool.

(** A predicate on any arithmetic value: its integer and its floating-point
    instances. *)
Record ArithPredicate : Type :=
  { on_int : IntPredicate;
    on_float : float -> Check bool }.

(** [GetPropertyValue] of an integer property: the stored bits read in the
    property's type. *)
Definition GetIntValue (t : IntType) (stored : Z) : Z := static_cast t stored.

(** [TestIntegerProperty]: the predicate on the value if the property is of
    an integer type, [false] otherwise. *)
Definition TestIntegerProperty (P : FProperty) (Predicate : IntPredicate)
  : ValueOf P -> Check bool :=
  match P return ValueOf P -> Check bool with
  | FInt8Property => fun v => Predicate Int8 (GetIntValue Int8 v)
  | FInt16Property => fun v => Predicate Int16 (GetIntValue Int16 v)
  | FIntProperty => fun v => Predicate Int32 (GetIntValue Int32 v)
  | FInt64Property => fun v => Predicate Int64 (GetIntValue Int64 v)
  | FByteProperty => fun v => Predicate UInt8 (GetIntValue UInt8 v)
  | FUInt16Property => fun v => Predicate UInt16 (GetIntValue UInt16 v)
  | FUInt32Property => fun v => Predicate UInt32 (GetIntValue UInt32 v)
  | FUInt64Property => fun v => Predicate UInt64 (GetIntValue UInt64 v)
  | _ => fun _ => ret false
  end.

(** [TestArithmeticProperty]: the integer test first; when it does not
    answer [true], the predicate on the value of a float or double
    property, and [false] for every other property. *)
Definition TestArithmeticProperty (P : FProperty) (Predicate : ArithPredicate)
  (v : ValueOf P) : Check bool :=
  b <- TestIntegerProperty P (on_int Predicate) v ;;
  if b then ret true
  else match P return ValueOf P -> Check bool with
       | FFloatProperty => fun x => on_float Predicate x
       | FDoubleProperty => fun x => on_float Predicate x
       | _ => fun _ => ret false
       end v.

(** The comparison lambdas of the sign rules and of [ID], at each type. *)
Definition CompareWithInt (cmpZ : Z -> Z -> bool) (cmpF : float -> float -> bool)
  (c : Z) (cf : float) : ArithPredicate :=
  {| on_int := fun t v => ret (cmpZ v (int_constant_as t c));
     on_float := fun x => ret (cmpF x cf) |}.

Definition IsNotIndexNone : IntPredicate :=
  fun t v => ret (negb (v =? int_constant_as t INDEX_NONE)).

Definition Gte0 : ArithPredicate :=
  CompareWithInt Z.geb (fun x y => PrimFloat.leb y x) 0 zero.
Definition Gt0 : ArithPredicate :=
  CompareWithInt Z.gtb (fun x y => PrimFloat.ltb y x) 0 zero.
Definition Lte0 : ArithPredicate :=
  CompareWithInt Z.leb PrimFloat.leb 0 zero.
Definition Lt0 : ArithPredicate :=
  CompareWithInt Z.ltb PrimFloat.ltb 0 zero.

(* ================================================================= *)
(** ** The Range rule *)

(** The [SanitizeNumberString] lambda: white space and the separators [,]
    and [_] are skipped, digits, [.], [+], [-], [e] and [E] are kept, and
    every other character is dropped. *)
Fixpoint SanitizeNumberString (In : string) : string :=
  match In with
  | EmptyString => EmptyString
  | String C r =>
      if FChar.IsWhitespace C then SanitizeNumberString r
      else if (Ascii.eqb C "," || Ascii.eqb C "_")%bool
           then SanitizeNumberString r
      else if (FChar.IsDigit C || Ascii.eqb C "." || Ascii.eqb C "+"
               || Ascii.eqb C "-" || Ascii.eqb C "e" || Ascii.eqb C "E")%bool
           then String C (SanitizeNumberString r)
      else SanitizeNumberString r
  end.

(** What the first half of the Range branch extracts from the tag. *)
Record RangeBound : Type :=
  { bLowerInclusive : bool;
    bUpperInclusive : bool;
    LowerTrimmed : string;
    UpperTrimmed : string }.

(** The Range branch up to the sanitized bounds: the text after "Range" is
    trimmed at its start, must open with a bracket and have two characters
    at least; its first and last characters give the inclusivity flags, and
    what lies between them is split at the commas into exactly two bounds. *)
Definition ParseRange (cls prop InvariantRule : string) : Check RangeBound :=
  let RangeSpec := FString.TrimStart (FString.Mid InvariantRule 5) in
  (if (FString.IsEmpty RangeSpec
       || (negb (Ascii.eqb (FString.At RangeSpec 0) "(")
           && negb (Ascii.eqb (FString.At RangeSpec 0) "[")))%bool
   then fatal NoEntry else ret tt) ;;
  checkf (2 <=? FString.Len RangeSpec)%nat (RangeFormat cls prop) ;;
  let LowerBracket := FString.At RangeSpec 0 in
  let UpperBracket := FString.At RangeSpec (FString.Len RangeSpec - 1)%nat in
  let Inner := FString.MidCount RangeSpec 1 (FString.Len RangeSpec - 2)%nat in
  let Parts := FString.ParseIntoArray Inner "," in
  checkf (List.length Parts =? 2)%nat (RangeBoundCount cls prop) ;;
  ret {| bLowerInclusive := Ascii.eqb LowerBracket "[";
         bUpperInclusive := Ascii.eqb UpperBracket "]";
         LowerTrimmed :=
           SanitizeNumberString (FString.TrimStartAndEnd (nth 0 Parts ""));
         UpperTrimmed :=
           SanitizeNumberString (FString.TrimStartAndEnd (nth 1 Parts "")) |}.

Definition bBoundsHaveFloatMarker (b : RangeBound) : bool :=
  (FString.ContainsChar (LowerTrimmed b) "."
   || FString.ContainsChar (LowerTrimmed b) "e"
   || FString.ContainsChar (LowerTrimmed b) "E"
   || FString.ContainsChar (UpperTrimmed b) "."
   || FString.ContainsChar (UpperTrimmed b) "e"
   || FString.ContainsChar (UpperTrimmed b) "E")%bool.

(** The lambda of the integer path, at a signed and at an unsigned [T]. *)
Definition RangeIntPredicate (b : RangeBound) : IntPredicate :=
  fun T V =>
    if is_signed T then
      let LowerI := FCString.Atoi64 (LowerTrimmed b) in
      let UpperI := FCString.Atoi64 (UpperTrimmed b) in
      checkf (LowerI <=? UpperI) RangeBoundOrder ;;
      let LowerBound := static_cast T LowerI in
      let UpperBound := static_cast T UpperI in
      let LowerOk := if bLowerInclusive b then V >=? LowerBound
                     else V >? LowerBound in
      let UpperOk := if bUpperInclusive b then V <=? UpperBound
                     else V <? UpperBound in
      ret (LowerOk && UpperOk)%bool
    else
      let LowerI := FCString.Strtoui64 (LowerTrimmed b) in
      let UpperI := FCString.Strtoui64 (UpperTrimmed b) in
      let LowerBound := static_cast T LowerI in
      let UpperBound := static_cast T UpperI in
      let LowerOk := if bLowerInclusive b then V >=? LowerBound
                     else V >? LowerBound in
      let UpperOk := if bUpperInclusive b then V <=? UpperBound
                     else V <? UpperBound in
      ret (LowerOk && UpperOk)%bool.

(** The engine's [FMath] on doubles. *)
Module FMath.
Definition Max (A B : float) : float := if PrimFloat.ltb B A then A else B.
Definition Min (A B : float) : float := if PrimFloat.ltb A B then A else B.
Definition Abs (A : float) : float := PrimFloat.abs A.
Definition Clamp (X MinValue MaxValue : float) : float :=
  Max (Min X MaxValue) MinValue.
End FMath.

(** The double a decimal literal of the source denotes. *)
Definition Literal_1_0 : float := Eval vm_compute in FCString.Atod "1.0".
Definition Literal_1em6 : float := Eval vm_compute in FCString.Atod "1e-6".
Definition Literal_1em10 : float := Eval vm_compute in FCString.Atod "1e-10".
Definition Literal_1em3 : float := Eval vm_compute in FCString.Atod "1e-3".

(** The body of the lambda of the floating-point path, on the value
    converted to [double]. *)
Definition RangeFloatBody (LowerD UpperD : float) (bLI bUI : bool)
  (Value : float) : bool :=
  let Scale :=
    FMath.Max Literal_1_0
      (FMath.Max (FMath.Abs LowerD)
         (FMath.Max (FMath.Abs UpperD) (FMath.Abs Value))) in
  let Eps := FMath.Clamp (Scale * Literal_1em6) Literal_1em10 Literal_1em3 in
  let LowerOk := if bLI then PrimFloat.leb (LowerD - Eps) Value
                 else PrimFloat.ltb (LowerD - Eps) Value in
  let UpperOk := if bUI then PrimFloat.leb Value (UpperD + Eps)
                 else PrimFloat.ltb Value (UpperD + Eps) in
  (LowerOk && UpperOk)%bool.

(** [static_cast<double>] of an integer: the nearest double. *)
Definition IntToDouble (z : Z) : float :=
  SF2Prim (binary_normalize prec emax z 0 false).

Definition RangeFloatPredicate (LowerD UpperD : float) (bLI bUI : bool)
  : ArithPredicate :=
  {| on_int := fun _ V =>
       ret (RangeFloatBody LowerD UpperD bLI bUI (IntToDouble V));
     on_float := fun V => ret (RangeFloatBody LowerD UpperD bLI bUI V) |}.

(** The branch [InvariantRule.StartsWith("Range")]. *)
Definition CheckRange (cls prop InvariantRule : string) (P : FProperty)
  (v : ValueOf P) : Check unit :=
  b <- ParseRange cls prop InvariantRule ;;
  bIsValid <-
    (if IsIntegerProperty P then
       (if bBoundsHaveFloatMarker b
        then fatal (RangeIntegerBounds cls prop) else ret tt) ;;
       TestIntegerProperty P (RangeIntPredicate b) v
     else if IsFloatProperty P then
       let LowerD := FCString.Atod (LowerTrimmed b) in
       let UpperD := FCString.Atod (UpperTrimmed b) in
       checkf (PrimFloat.leb LowerD UpperD) (RangeBoundOrderOn cls prop) ;;
       TestArithmeticProperty P
         (RangeFloatPredicate LowerD UpperD
            (bLowerInclusive b) (bUpperInclusive b)) v
     else fatal (RangeNonArithmetic cls prop)) ;;
  checkf bIsValid (RangeViolation cls prop).

(* ================================================================= *)
(** ** The rule engine *)

Section Rules.

Variable h : Heap.
(** The object under inspection and its class name. *)
Variable Object : UObject.
Let ClassName : string := GetClass Object.

(** The recursive call of the Contract* rule. *)
Variable Recurse : ObjectPtr -> Check unit.

(** Invariant=MemSafe. *)
Definition CheckMemSafe (PropertyName : string) (P : FProperty)
  : ValueOf P -> Check unit :=
  let violation := Violation "MemSafe" ClassName PropertyName in
  match P return ValueOf P -> Check unit with
  | FObjectProperty _ | FClassProperty =>
      fun v => checkf (negb (IsNullptr v)) violation
  | FSoftObjectProperty | FSoftClassProperty =>
      fun v => checkf (Soft_NotNullptr h v) violation
  | FWeakObjectProperty =>
      fun v => checkf (Weak_IsValid h v) violation
  | FInterfaceProperty =>
      fun v => checkf (negb (IsNullptr (GetObject v))) violation
  | _ => fun _ => fatal (UsedOnNon "MemSafe" "pointer" ClassName PropertyName)
  end.

(** Invariant=MemSafeContainer. *)
Definition CheckMemSafeContainer (PropertyName : string) (P : FProperty)
  (v : ValueOf P) : Check unit :=
  let bIsContainer :=
    match P with
    | FArrayProperty _ | FSetProperty _ | FMapProperty _ _
    | FOptionalProperty _ => true
    | _ => false
    end in
  checkf bIsContainer
    (UsedOnNon "MemSafeContainer" "container" ClassName PropertyName) ;;
  let bIsValid := ValidateMemSafeContainer h P v in
  checkf bIsValid (ContainerViolation ClassName PropertyName).

(** Invariant=ID. *)
Definition CheckID (PropertyName : string) (P : FProperty) (v : ValueOf P)
  : Check unit :=
  bIsValid <- TestIntegerProperty P IsNotIndexNone v ;;
  checkf bIsValid (Violation "ID" ClassName PropertyName).

(** Invariant=Gte0, Gt0, Lte0 and Lt0. *)
Definition CheckSign (rule : string) (Predicate : ArithPredicate)
  (PropertyName : string) (P : FProperty) (v : ValueOf P) : Check unit :=
  bIsValid <- TestArithmeticProperty P Predicate v ;;
  checkf bIsValid (Violation rule ClassName PropertyName).

(** Invariant=name. *)
Definition CheckName (PropertyName : string) (P : FProperty)
  : ValueOf P -> Check unit :=
  match P return ValueOf P -> Check unit with
  | FNameProperty =>
      fun v => checkf (negb (IsNone v))
                 (Violation "name" ClassName PropertyName)
  | _ => fun _ => fatal (UsedOnNon "name" "FName" ClassName PropertyName)
  end.

(** Invariant=True and Invariant=False. *)
Definition CheckBool (rule : string) (expected : bool)
  (PropertyName : string) (P : FProperty) : ValueOf P -> Check unit :=
  match P return ValueOf P -> Check unit with
  | FBoolProperty =>
      fun v => checkf (Bool.eqb v expected)
                 (Violation rule ClassName PropertyName)
  | _ => fun _ => fatal (UsedOnNon rule "bool" ClassName PropertyName)
  end.

(** [Value->GetClass()]: the class of the object [Value] points to. *)
Definition ClassOf (p : ObjectPtr) : Check UClass :=
  match Deref h p with
  | Some o => ret (GetClass o)
  | None => abort InvalidDereference
  end.

(** Invariant=Contract*. *)
Definition CheckContract (PropertyName : string) (P : FProperty)
  : ValueOf P -> Check unit :=
  match P return ValueOf P -> Check unit with
  | FObjectProperty _ | FClassProperty =>
      fun v =>
        ValueClass <- ClassOf v ;;
        checkf (negb (String.eqb ValueClass (GetClass Object)))
          SameClassContract ;;
        checkf (IsValid h v) (Violation "Contract*" ClassName PropertyName) ;;
        if negb (IsNullptr v) then Recurse v else ret tt
  | _ =>
      fun _ => fatal (UsedOnNon "Contract*" "pointer" ClassName PropertyName)
  end.

(** [Class->FindFunctionByName]: names are compared ignoring case. *)
Definition FindFunctionByName (Name : string) : option UFunction :=
  find (fun F => FString.Equals (FuncName F) Name) (Functions Object).

Definition IsBoolProperty (r : option FProperty) : bool :=
  match r with Some FBoolProperty => true | _ => false end.

(** Invariant=PublicFunctionName: the last branch of the chain. *)
Definition CheckCustom (PropertyName InvariantRule : string) : Check unit :=
  match FindFunctionByName InvariantRule with
  | None => fatal (FunctionNotFound InvariantRule)
  | Some Function =>
      checkf (FUNC_Const Function) (FunctionNotConst InvariantRule) ;;
      checkf (NumParms Function =? 1)%nat (FunctionParams InvariantRule) ;;
      bIsValid <- ProcessEvent Object Function ;;
      checkf (IsBoolProperty (GetReturnProperty Function))
        (FunctionReturn InvariantRule) ;;
      checkf bIsValid
        (CustomCheckFailed ClassName PropertyName InvariantRule)
  end.

(** The body of the loop over the properties, for a property that has
    the "Invariant" metadata [InvariantRule]. *)
Definition CheckProperty (PropertyName InvariantRule : string)
  (P : FProperty) (v : ValueOf P) : Check unit :=
  if FString.Equals InvariantRule "MemSafe" then
    CheckMemSafe PropertyName P v
  else if FString.Equals InvariantRule "MemSafeContainer" then
    CheckMemSafeContainer PropertyName P v
  else if FString.Equals InvariantRule "ID" then
    CheckID PropertyName P v
  else if FString.Equals InvariantRule "Gte0" then
    CheckSign "Gte0" Gte0 PropertyName P v
  else if FString.Equals InvariantRule "Gt0" then
    CheckSign "Gt0" Gt0 PropertyName P v
  else if FString.Equals InvariantRule "Lte0" then
    CheckSign "Lte0" Lte0 PropertyName P v
  else if FString.Equals InvariantRule "Lt0" then
    CheckSign "Lt0" Lt0 PropertyName P v
  else if FString.StartsWith InvariantRule "Range" then
    CheckRange ClassName PropertyName InvariantRule P v
  else if FString.Equals InvariantRule "name" then
    CheckName PropertyName P v
  else if FString.Equals InvariantRule "True" then
    CheckBool "True" true PropertyName P v
  else if FString.Equals InvariantRule "False" then
    CheckBool "False" false PropertyName P v
  else if FString.Equals InvariantRule "Contract*" then
    CheckContract PropertyName P v
  else
    CheckCustom PropertyName InvariantRule.

Definition CheckField (f : Field) : Check unit :=
  match Invariant f with
  | None => ret tt
  | Some InvariantRule =>
      CheckProperty (GetName f) InvariantRule (Property f) (Value f)
  end.

(** The loop over the properties, in the order of the iterator. *)
Fixpoint CheckFields (fs : list Field) : Check unit :=
  match fs with
  | [] => ret tt
  | f :: rest => CheckField f ;; CheckFields rest
  end.

(** The body of the loop over the functions that have the metadata. *)
Definition CheckFunction (Function : UFunction) : Check unit :=
  if HasInvariant Function then
    let FunctionName := FuncName Function in
    checkf (FUNC_Const Function) (MethodNotConst FunctionName ClassName) ;;
    checkf (NumParms Function =? 1)%nat
      (MethodParams FunctionName ClassName) ;;
    checkf (IsBoolProperty (GetReturnProperty Function))
      (MethodReturn FunctionName ClassName) ;;
    bIsValid <- ProcessEvent Object Function ;;
    checkf bIsValid (MethodFailed FunctionName ClassName)
  else ret tt.

Fixpoint CheckFunctions (fs : list UFunction) : Check unit :=
  match fs with
  | [] => ret tt
  | F :: rest => CheckFunction F ;; CheckFunctions rest
  end.

End Rules.

(** [Debug::CheckClassInvariants]. The recursion through Contract* has no
    bound in the source; [fuel] bounds its depth here. *)
Fixpoint CheckClassInvariants (fuel : nat) (h : Heap) (Object : ObjectPtr)
  : Check unit :=
  match fuel with
  | O => abort OutOfFuel
  | S fuel' =>
      checkf (negb (IsNullptr Object)) Precondition ;;
      match Deref h Object with
      | None => abort InvalidDereference
      | Some Obj =>
          CheckFields h Obj (CheckClassInvariants fuel' h) (Fields Obj) ;;
          CheckFunctions Obj (Functions Obj)
      end
  end.

(** A pass from an empty call log. *)
Definition Run (fuel : nat) (h : Heap) (Object : ObjectPtr) : Res unit :=
  CheckClassInvariants fuel h Object [].

(* ================================================================= *)
(** ** The widened range, in the words of the specification *)

(** Section 4.4, step 7: [epsilon = clamp(max(1, |lower|, |upper|, |value|)
    x 1e-6, 1e-10, 1e-3)], and the comparisons are made against
    [lower - epsilon] and [upper + epsilon]. *)
Definition max_of (xs : list float) (x0 : float) : float :=
  fold_right FMath.Max x0 xs.

Definition adaptive_epsilon (lower upper value : float) : float :=
  FMath.Clamp
    (max_of [Literal_1_0; FMath.Abs lower; FMath.Abs upper] (FMath.Abs value)
     * Literal_1em6)
    Literal_1em10 Literal_1em3.

Definition in_widened_range (lower upper : float) (lowerInclusive
  upperInclusive : bool) (value : float) : bool :=
  let eps := adaptive_epsilon lower upper value in
  ((if lowerInclusive then PrimFloat.leb (lower - eps) value
    else PrimFloat.ltb (lower - eps) value)
   && (if upperInclusive then PrimFloat.leb value (upper + eps)
       else PrimFloat.ltb value (upper + eps)))%bool.

(* ================================================================= *)
(** ** Call logs *)

Definition LogOf {A : Type} (r : Res A) : CallLog :=
  match r with
  | Done _ log => log
  | Stop _ log => log
  end.

(** Every call of the log was to a function declared const. *)
Definition AllConst (log : CallLog) : Prop :=
  Forall (fun call => FUNC_Const (snd call) = true) log.

(** A computation that calls const functions only. *)
Definition ConstOnly {A : Type} (c : Check A) : Prop :=
  forall log, AllConst log -> AllConst (LogOf (c log)).

(** A computation that calls nothing. *)
Definition Silent {A : Type} (c : Check A) : Prop :=
  forall log, LogOf (c log) = log.

(* ================================================================= *)
(** ** Sample objects *)

Definition MakeField (n tag : string) (P : FProperty) (v : ValueOf P) : Field :=
  {| GetName := n; Invariant := Some tag; Property := P; Value := v |}.

(** An object of class [cls] with the single tagged property [X]. *)
Definition Single (cls tag : string) (P : FProperty) (v : ValueOf P) : UObject :=
  {| GetClass := cls;
     Fields := [MakeField "X" tag P v];
     Functions := [];
     Garbage := false |}.

(** A list node whose [Next] is declared of the node's own class, and a
    node of a derived class, which inherits [Next], marked as garbage. *)
Definition NodeA : UObject :=
  {| GetClass := "UNode";
     Fields := [MakeField "Next" "Contract*" (FObjectProperty "UNode")
                  (Some 1%nat)];
     Functions := [];
     Garbage := false |}.

Definition NodeB : UObject :=
  {| GetClass := "UNodeDerived";
     Fields := [MakeField "Next" "Contract*" (FObjectProperty "UNode") None];
     Functions := [];
     Garbage := true |}.

Definition NodeHeap : Heap := [NodeA; NodeB].

(** A node whose [Next] points back to the node itself. *)
Definition NodeSelf : UObject :=
  {| GetClass := "UNode";
     Fields := [MakeField "Next" "Contract*" (FObjectProperty "UNode")
                  (Some 0%nat)];
     Functions := [];
     Garbage := false |}.

(** A soft pointer that names an asset which is not loaded. *)
Definition PendingSoft (path : string) : FSoftObjectPtr :=
  {| ObjectID := path; Resolved := None |}.

(** Reflected functions: [bool IsReady()] without const, and with it. *)
Definition IsReady_nonconst : UFunction :=
  {| FuncName := "IsReady"; HasInvariant := true; FUNC_Const := false;
     NumParms := 1; GetReturnProperty := Some FBoolProperty;
     Returns := true |}.

Definition WithFunction (F : UFunction) : UObject :=
  {| GetClass := "UGadget";
     Fields := [MakeField "Count" "IsReady" FIntProperty 3];
     Functions := [F];
     Garbage := false |}.

(** A function with the same signature that is declared const. *)
Definition IsReady_const : UFunction :=
  {| FuncName := "IsReady"; HasInvariant := true; FUNC_Const := true;
     NumParms := 1; GetReturnProperty := Some FBoolProperty;
     Returns := true |}.

(* ================================================================= *)
(** ** Reading the dispatcher *)

(** The tag is taken by one of the branches that come before the
    custom-predicate branch. *)
Definition IsRuleKeyword (InvariantRule : string) : bool :=
  (FString.Equals InvariantRule "MemSafe"
   || FString.Equals InvariantRule "MemSafeContainer"
   || FString.Equals InvariantRule "ID"
   || FString.Equals InvariantRule "Gte0"
   || FString.Equals InvariantRule "Gt0"
   || FString.Equals InvariantRule "Lte0"
   || FString.Equals InvariantRule "Lt0"
   || FString.StartsWith InvariantRule "Range"
   || FString.Equals InvariantRule "name"
   || FString.Equals InvariantRule "True"
   || FString.Equals InvariantRule "False"
   || FString.Equals InvariantRule "Contract*")%bool.

(** The value of a float or double property, as the [double] the range
    lambda converts it to. *)
Definition DoubleValue (P : FProperty) : ValueOf P -> float :=
  match P return ValueOf P -> float with
  | FFloatProperty => fun x => x
  | FDoubleProperty => fun x => x
  | _ => fun _ => zero
  end.

(** The four sign rules, each with a value that fails it. *)
Definition SignRules : list (string * Z) :=
  [("Gte0", -1); ("Gt0", 0); ("Lte0", 1); ("Lt0", 0)].

(* ================================================================= *)
(** ** Values of integer properties and plain intervals *)

(** The least and the greatest value of each integer type. *)
Definition MinValue (t : IntType) : Z :=
  if is_signed t then - 2 ^ (bits t - 1) else 0.

Definition MaxValue (t : IntType) : Z :=
  if is_signed t then 2 ^ (bits t - 1) - 1 else 2 ^ bits t - 1.

Definition InRange (t : IntType) (z : Z) : Prop :=
  MinValue t <= z <= MaxValue t.

(** The stored integer of an integer property. *)
Definition StoredInt (P : FProperty) : ValueOf P -> Z :=
  match P return ValueOf P -> Z with
  | FInt8Property | FInt16Property | FIntProperty | FInt64Property
  | FByteProperty | FUInt16Property | FUInt32Property | FUInt64Property =>
      fun z => z
  | _ => fun _ => 0
  end.

(** The bound the integer lambda reads from a sanitized text, at type [t]. *)
Definition ParseBound (t : IntType) (s : string) : Z :=
  if is_signed t then FCString.Atoi64 s else FCString.Strtoui64 s.

(** Membership of an interval of integers, each end closed or open. *)
Definition InInterval (lo hi : Z) (loClosed hiClosed : bool) (v : Z) : bool :=
  ((if loClosed then lo <=? v else lo <? v)
   && (if hiClosed then v <=? hi else v <? hi))%bool.

(** White space only. *)
Fixpoint AllWhitespace (s : string) : bool :=
  match s with
  | EmptyString => true
  | String c r => (FChar.IsWhitespace c && AllWhitespace r)%bool
  end.

(** The characters the range sanitizer keeps. *)
Definition IsNumericChar (c : ascii) : bool :=
  (FChar.IsDigit c || Ascii.eqb c "." || Ascii.eqb c "+"
   || Ascii.eqb c "-" || Ascii.eqb c "e" || Ascii.eqb c "E")%bool.

(** A result that is not the recursion budget running out. *)
Definition Settled {A : Type} (r : Res A) : Prop :=
  match r with
  | Stop OutOfFuel _ => False
  | _ => True
  end.

(** The property carries the "Invariant" metadata. *)
Definition HasMetaData (f : Field) : bool := IsSet (Invariant f).

(* ================================================================= *)
(** ** More sample objects *)

(** An object whose first field fails its rule and whose second would fail
    too. *)
Definition CountAndTarget : UObject :=
  {| GetClass := "UThing";
     Fields := [MakeField "Count" "Gte0" FIntProperty (-1);
                MakeField "Target" "MemSafe" (FObjectProperty "UObject") None];
     Functions := [];
     Garbage := false |}.

(** Two objects of different classes that require each other. *)
Definition Owner : UObject :=
  {| GetClass := "UOwner";
     Fields := [MakeField "Pet" "Contract*" (FObjectProperty "UPet")
                  (Some 1%nat)];
     Functions := [];
     Garbage := false |}.

Definition Pet : UObject :=
  {| GetClass := "UPet";
     Fields := [MakeField "Owner" "Contract*" (FObjectProperty "UOwner")
                  (Some 0%nat)];
     Functions := [];
     Garbage := false |}.

(** [R2] answers as [R1] wherever [R1] settles. *)
Definition Extends (R1 R2 : ObjectPtr -> Check unit) : Prop :=
  forall p log, Settled (R1 p log) -> R2 p log = R1 p log.

(** A const function named [IsReady] that returns an integer. *)
Definition CountItems : UFunction :=
  {| FuncName := "IsReady"; HasInvariant := true; FUNC_Const := true;
     NumParms := 1; GetReturnProperty := Some FIntProperty;
     Returns := true |}.

(* ================================================================= *)
(** ** The fixed keywords and their rules *)

(** The branches of the dispatcher that compare the tag with a fixed
    keyword, in the order of the source, each with the rule it applies to
    the property at hand. *)
Definition FixedRules (h : Heap) (Obj : UObject) (R : ObjectPtr -> Check unit)
  (n : string) (P : FProperty) (v : ValueOf P) : list (string * Check unit) :=
  [("MemSafe", CheckMemSafe h Obj n P v);
   ("MemSafeContainer", CheckMemSafeContainer h Obj n P v);
   ("ID", CheckID Obj n P v);
   ("Gte0", CheckSign Obj "Gte0" Gte0 n P v);
   ("Gt0", CheckSign Obj "Gt0" Gt0 n P v);
   ("Lte0", CheckSign Obj "Lte0" Lte0 n P v);
   ("Lt0", CheckSign Obj "Lt0" Lt0 n P v);
   ("name", CheckName Obj n P v);
   ("True", CheckBool Obj "True" true n P v);
   ("False", CheckBool Obj "False" false n P v);
   ("Contract*", CheckContract h Obj R n P v)].

(** The characters a number is written with. *)
Definition NumericChars : string := "0123456789.+-eE".

Definition IsOneOf (chars : string) (c : ascii) : bool :=
  existsb (Ascii.eqb c) (list_ascii_of_string chars).

(* ================================================================= *)
(** ** Functions named by a tag and functions tagged themselves *)

(** [bool IsReady()] without const and without the "Invariant" metadata: a
    predicate that only the tag of a property names. *)
Definition IsReady_untagged : UFunction :=
  {| FuncName := "IsReady"; HasInvariant := false; FUNC_Const := false;
     NumParms := 1; GetReturnProperty := Some FBoolProperty;
     Returns := true |}.

(** [bool Audit()] without const, tagged as an invariant itself; the tag of
    no property names it. *)
Definition Audit_nonconst : UFunction :=
  {| FuncName := "Audit"; HasInvariant := true; FUNC_Const := false;
     NumParms := 1; GetReturnProperty := Some FBoolProperty;
     Returns := true |}.

(** [int32 IsReady() const] without the metadata, and [int32 Audit() const]
    tagged as an invariant. *)
Definition IsReady_int : UFunction :=
  {| FuncName := "IsReady"; HasInvariant := false; FUNC_Const := true;
     NumParms := 1; GetReturnProperty := Some FIntProperty;
     Returns := true |}.

Definition Audit_int : UFunction :=
  {| FuncName := "Audit"; HasInvariant := true; FUNC_Const := true;
     NumParms := 1; GetReturnProperty := Some FIntProperty;
     Returns := true |}.

(* ================================================================= *)
(** ** The references a pass follows *)

(** The object a field makes the pass descend into: the value of an object
    property whose tag is Contract*. *)
Definition ContractTarget (f : Field) : ObjectPtr :=
  match Invariant f with
  | Some InvariantRule =>
      if FString.Equals InvariantRule "Contract*" then
        match Property f as P return ValueOf P -> ObjectPtr with
        | FObjectProperty _ | FClassProperty => fun v => v
        | _ => fun _ => None
        end (Value f)
      else None
  | None => None
  end.

(** Every Contract* reference of the objects of [objs], which sit in the
    heap from index [i] on, leads to an object of smaller rank: the
    references form no cycle. *)
Fixpoint RanksDecreaseFrom (rank : ObjId -> nat) (i : ObjId)
  (objs : list UObject) : bool :=
  match objs with
  | [] => true
  | Obj :: rest =>
      (forallb (fun f => match ContractTarget f with
                         | Some j => (rank j <? rank i)%nat
                         | None => true
                         end) (Fields Obj)
       && RanksDecreaseFrom rank (S i) rest)%bool
  end.

Definition RanksDecrease (rank : ObjId -> nat) (h : Heap) : bool :=
  RanksDecreaseFrom rank 0%nat h.

(** A computation that never ends by the recursion budget running out. *)
Definition Total {A : Type} (c : Check A) : Prop :=
  forall log, Settled (c log).

(** A pet that requires nothing of its owner. *)
Definition Stray : UObject :=
  {| GetClass := "UPet";
     Fields := [MakeField "Age" "Gte0" FIntProperty 3];
     Functions := [];
     Garbage := false |}.

(* ================================================================= *)
(** ** The checklist registry of LifeChecklist.h *)

(** [FLifeChecklistRegistry], the keeper of the step-by-step checklists,
    which asserts through the contract macros. The registry is a
    singleton in the source and a value passed along here; the lines it
    writes to the log are left out. *)
Module Checklist.

(** How an operation of the registry can end the program. *)
Inductive Fault : Type :=
| NotRegistered (ChecklistName : FName)
| Precond
| DuplicateStep (ChecklistName Step : FName)
| UnexpectedStep (ChecklistName Expected Got : FName)
| CannotBeginStep (ChecklistName Step : FName) (LastCompleted : string)
| KeyNotFound (ChecklistName : FName)
| IndexOutOfBounds (Index Num : Z).

(** [FLifeChecklistState]. *)
Record FLifeChecklistState : Type :=
  { Steps : list FName;
    LastFinishedStepIndex : Z;
    bIsDone : bool }.

(** The [TMap] from checklist names to states, as its list of pairs. *)
Definition Registry : Type := list (FName * FLifeChecklistState).

(** Names are compared ignoring case, as [FName] does. *)
Definition SameName (a b : FName) : bool := FString.Equals a b.

(** [TMap::Find]. *)
Fixpoint Find (reg : Registry) (Name : FName) : option FLifeChecklistState :=
  match reg with
  | [] => None
  | (k, st) :: rest => if SameName k Name then Some st else Find rest Name
  end.

(** [TMap::Contains]. *)
Definition Contains (reg : Registry) (Name : FName) : bool :=
  IsSet (Find reg Name).

(** [TMap::Add]: the value of an existing key is replaced. *)
Fixpoint Add (reg : Registry) (Name : FName) (st : FLifeChecklistState)
  : Registry :=
  match reg with
  | [] => [(Name, st)]
  | (k, old) :: rest =>
      if SameName k Name then (k, st) :: rest
      else (k, old) :: Add rest Name st
  end.

(** A write through the pointer that [Find] gave. *)
Fixpoint Modify (reg : Registry) (Name : FName)
  (f : FLifeChecklistState -> FLifeChecklistState) : Registry :=
  match reg with
  | [] => []
  | (k, st) :: rest =>
      if SameName k Name then (k, f st) :: rest
      else (k, st) :: Modify rest Name f
  end.

(** [TArray::Num]. *)
Definition Num (steps : list FName) : Z := Z.of_nat (List.length steps).

(** [TArray::IndexOfByKey]: the first index that holds the name, or
    [INDEX_NONE]. *)
Fixpoint IndexOfByKey (steps : list FName) (Step : FName) (from : Z) : Z :=
  match steps with
  | [] => INDEX_NONE
  | s :: rest =>
      if SameName s Step then from else IndexOfByKey rest Step (from + 1)
  end.

(** [int32] addition. *)
Definition Add32 (a b : Z) : Z := static_cast Int32 (a + b).

(** The editor-only loop of [Register]: the first step that was seen
    before. *)
Fixpoint FirstDuplicate (Seen steps : list FName) : option FName :=
  match steps with
  | [] => None
  | Step :: rest =>
      if existsb (fun x => SameName x Step) Seen then Some Step
      else FirstDuplicate (Step :: Seen) rest
  end.

(** [Register<Checklist>()], for the name and the steps of [Checklist]. *)
Definition Register (WITH_EDITOR : bool) (ChecklistName : FName)
  (ChecklistSteps : list FName) (reg : Registry) : Fault + Registry :=
  if Contains reg ChecklistName then inr reg
  else
    let State := {| Steps := ChecklistSteps;
                    LastFinishedStepIndex := INDEX_NONE;
                    bIsDone := false |} in
    match (if WITH_EDITOR then FirstDuplicate [] (Steps State) else None) with
    | Some Step => inl (DuplicateStep ChecklistName Step)
    | None => inr (Add reg ChecklistName State)
    end.

(** [CanBeginStep]. *)
Definition CanBeginStep (reg : Registry) (ChecklistName StepName : FName)
  : Fault + bool :=
  match Find reg ChecklistName with
  | None => inl (NotRegistered ChecklistName)
  | Some State =>
      let ExpectedIndex := Add32 (LastFinishedStepIndex State) 1 in
      if (ExpectedIndex <? 0) || (ExpectedIndex >=? Num (Steps State))
      then inr false
      else inr (SameName (nth (Z.to_nat ExpectedIndex) (Steps State) "")
                  StepName)
  end.

(** [IsStepDone]. *)
Definition IsStepDone (reg : Registry) (ChecklistName StepName : FName)
  : Fault + bool :=
  match Find reg ChecklistName with
  | None => inl (NotRegistered ChecklistName)
  | Some State =>
      let StepIndex := IndexOfByKey (Steps State) StepName 0 in
      if StepIndex =? INDEX_NONE then inr false
      else inr ((negb (LastFinishedStepIndex State =? INDEX_NONE)
                 && (StepIndex <=? LastFinishedStepIndex State))
                || bIsDone State)
  end.

(** [IsChecklistDone]. *)
Definition IsChecklistDone (reg : Registry) (ChecklistName : FName)
  : Fault + bool :=
  match Find reg ChecklistName with
  | None => inl (NotRegistered ChecklistName)
  | Some State => inr (bIsDone State)
  end.

(** [GetLastCompletedStepName]. *)
Definition GetLastCompletedStepName (reg : Registry) (ChecklistName : FName)
  : Fault + string :=
  match Find reg ChecklistName with
  | None => inl (NotRegistered ChecklistName)
  | Some State =>
      if bIsDone State then inr "completed"
      else if LastFinishedStepIndex State =? INDEX_NONE then inr "not started"
      else if (LastFinishedStepIndex State >=? 0)
              && (LastFinishedStepIndex State <? Num (Steps State))
           then inr (nth (Z.to_nat (LastFinishedStepIndex State))
                       (Steps State) "")
      else inr "invalid"
  end.

(** [SetChecklistDone]. *)
Definition SetChecklistDone (reg : Registry) (ChecklistName : FName)
  : Fault + Registry :=
  match Find reg ChecklistName with
  | None => inl Precond
  | Some _ =>
      inr (Modify reg ChecklistName
             (fun State => {| Steps := Steps State;
                              LastFinishedStepIndex :=
                                LastFinishedStepIndex State;
                              bIsDone := true |}))
  end.

(** [CheckStep]: the map and the array are indexed with their checked
    [operator[]]. *)
Definition CheckStep (reg : Registry) (ChecklistName StepName : FName)
  : Fault + Registry :=
  match Find reg ChecklistName with
  | None => inl (KeyNotFound ChecklistName)
  | Some State =>
      let ExpectedIndex := Add32 (LastFinishedStepIndex State) 1 in
      if (ExpectedIndex <? 0) || (ExpectedIndex >=? Num (Steps State))
      then inl (IndexOutOfBounds ExpectedIndex (Num (Steps State)))
      else
        let Expected := nth (Z.to_nat ExpectedIndex) (Steps State) "" in
        if negb (SameName Expected StepName)
        then inl (UnexpectedStep ChecklistName Expected StepName)
        else
          let reg1 :=
            Modify reg ChecklistName
              (fun St => {| Steps := Steps St;
                            LastFinishedStepIndex :=
                              Add32 (LastFinishedStepIndex St) 1;
                            bIsDone := bIsDone St |}) in
          if Add32 (LastFinishedStepIndex State) 1 =? Num (Steps State) - 1
          then SetChecklistDone reg1 ChecklistName
          else inr reg1
  end.

Definition Cleared (State : FLifeChecklistState) : FLifeChecklistState :=
  {| Steps := Steps State;
     LastFinishedStepIndex := INDEX_NONE;
     bIsDone := false |}.

(** [ResetChecklist]. *)
Definition ResetChecklist (reg : Registry) (ChecklistName : FName)
  : Fault + Registry :=
  if Contains reg ChecklistName
  then inr (Modify reg ChecklistName Cleared)
  else inl (NotRegistered ChecklistName).

(** [ResetAllForPie]. *)
Definition ResetAllForPie (reg : Registry) : Registry :=
  map (fun Pair => (fst Pair, Cleared (snd Pair))) reg.

(** [FLifeChecklistScope] around [body]: the constructor asserts that the
    step can begin, the destructor checks the step off. *)
Definition Scope (ChecklistName StepName : FName)
  (body : Registry -> Fault + Registry) (reg : Registry) : Fault + Registry :=
  match CanBeginStep reg ChecklistName StepName with
  | inl f => inl f
  | inr false =>
      match GetLastCompletedStepName reg ChecklistName with
      | inl f => inl f
      | inr last => inl (CannotBeginStep ChecklistName StepName last)
      end
  | inr true =>
      match body reg with
      | inl f => inl f
      | inr reg' => CheckStep reg' ChecklistName StepName
      end
  end.

(** The steps [steps] of a checklist, one scope after the other, each
    around a body that leaves the registry alone. *)
Fixpoint RunSteps (ChecklistName : FName) (steps : list FName)
  (reg : Registry) : Fault + Registry :=
  match steps with
  | [] => inr reg
  | s :: rest =>
      match Scope ChecklistName s (fun r => inr r) reg with
      | inl f => inl f
      | inr reg' => RunSteps ChecklistName rest reg'
      end
  end.

(** The index of the last finished step lies between [INDEX_NONE] and the
    last index, and the number of steps fits an [int32]. *)
Definition WellFormed (State : FLifeChecklistState) : Prop :=
  -1 <= LastFinishedStepIndex State < Num (Steps State)
  /\ Num (Steps State) <= 2147483647.

Definition AllWellFormed (reg : Registry) : Prop :=
  Forall (fun Pair => WellFormed (snd Pair)) reg.

(** The example checklist of the header. *)
Definition LoadWorldSteps : list FName :=
  ["load-world-json"; "initialize-streaming-volumes"; "register-world-events"].

(** The example checklist with its first step finished. *)
Definition LoadWorldStarted : Registry :=
  [("LoadWorld", {| Steps := LoadWorldSteps;
                    LastFinishedStepIndex := 0;
                    bIsDone := false |})].

End Checklist.

(* ================================================================= *)
(** ** General facts about the loops *)

Lemma CheckFields_app h Obj R pre rest log :
  CheckFields h Obj R (pre ++ rest)%list log =
  match CheckFields h Obj R pre log with
  | Done _ log' => CheckFields h Obj R rest log'
  | Stop e log' => Stop e log'
  end.
Proof.
  revert log. induction pre as [|f pre IH]; intros log; simpl.
  - reflexivity.
  - unfold bind. destruct (CheckField h Obj R f log) as [[] l|e l].
    + apply IH.
    + reflexivity.
Qed.

(** A pass that completes has completed the check of each field. *)
Lemma CheckFields_Done_each h Obj R fs :
  forall log a log',
    CheckFields h Obj R fs log = Done a log' ->
    forall f, In f fs -> exists l1 l2, CheckField h Obj R f l1 = Done tt l2.
Proof.
  induction fs as [|g fs IH]; intros log a log' H f Hin.
  - destruct Hin.
  - simpl in H. unfold bind in H.
    destruct (CheckField h Obj R g log) as [[] l|e l] eqn:E; [|discriminate].
    destruct Hin as [->|Hin].
    + exists log, l. exact E.
    + eapply IH; eauto.
Qed.

Lemma CheckClassInvariants_Done_each fuel h i Obj log a log' :
  nth_error h i = Some Obj ->
  CheckClassInvariants fuel h (Some i) log = Done a log' ->
  exists fuel', fuel = S fuel' /\
    forall f, In f (Fields Obj) ->
      exists l1 l2,
        CheckField h Obj (CheckClassInvariants fuel' h) f l1 = Done tt l2.
Proof.
  intros Hobj H. destruct fuel as [|fuel']; [discriminate|].
  exists fuel'. split; [reflexivity|].
  simpl in H. unfold bind at 1 in H. simpl in H. rewrite Hobj in H.
  unfold bind in H.
  destruct (CheckFields h Obj (CheckClassInvariants fuel' h) (Fields Obj) log)
    as [[] l|e l] eqn:E; [|discriminate].
  intros f Hin. eapply CheckFields_Done_each; eauto.
Qed.

(** Once the fields before [f] have passed, the pass goes on with [f], the
    fields after it and the tagged functions. *)
Lemma CheckClassInvariants_after_prefix fuel h i Obj pre f post log log1 :
  nth_error h i = Some Obj ->
  Fields Obj = (pre ++ f :: post)%list ->
  CheckFields h Obj (CheckClassInvariants fuel h) pre log = Done tt log1 ->
  CheckClassInvariants (S fuel) h (Some i) log =
  (CheckField h Obj (CheckClassInvariants fuel h) f ;;
   CheckFields h Obj (CheckClassInvariants fuel h) post ;;
   CheckFunctions Obj (Functions Obj)) log1.
Proof.
  intros Hobj Hf Hpre. simpl. unfold bind at 1. simpl. rewrite Hobj.
  unfold bind. rewrite Hf, CheckFields_app, Hpre. simpl. unfold bind.
  destruct (CheckField h Obj (CheckClassInvariants fuel h) f log1)
    as [[] l|e l]; reflexivity.
Qed.

(* ================================================================= *)
(** ** The Contract* rule *)

(** The Contract* check of an object property whose value points to [Tgt]:
    the class guard comes first, the validity of the referent second. *)
Lemma CheckContract_pointee h Obj R n C j Tgt log :
  nth_error h j = Some Tgt ->
  CheckContract h Obj R n (FObjectProperty C) (Some j) log =
  if String.eqb (GetClass Tgt) (GetClass Obj)
  then Stop (Fatal SameClassContract) log
  else if Garbage Tgt
       then Stop (Fatal (Violation "Contract*" (GetClass Obj) n)) log
       else R (Some j) log.
Proof.
  intros Hj. unfold CheckContract, ClassOf, bind, IsValid. simpl. rewrite Hj.
  simpl. destruct (String.eqb (GetClass Tgt) (GetClass Obj)); simpl.
  - reflexivity.
  - destruct (Garbage Tgt); reflexivity.
Qed.

(** C1, as amended. The guard of the Contract* rule compares the class of
    the object the field points to at present with the class of the
    containing object. For an object-pointer field tagged Contract* that
    points to an object, whatever the declared class [C] of the field: if
    the referent is of the containing object's class, the pass stops with
    the same-class configuration error at that field, before the validity
    of the referent is looked at and before any recursion; if the referent
    is of another class the guard passes, a referent that is not valid is
    then reported as a data violation, and a valid one is validated in
    turn before the pass goes on. *)
Theorem contract_guard_on_pointee_class :
  forall h fuel i Obj pre n C j Tgt post log log1,
    nth_error h i = Some Obj ->
    Fields Obj =
      (pre ++ MakeField n "Contract*" (FObjectProperty C) (Some j) :: post)%list ->
    CheckFields h Obj (CheckClassInvariants fuel h) pre log = Done tt log1 ->
    nth_error h j = Some Tgt ->
    CheckClassInvariants (S fuel) h (Some i) log =
    if String.eqb (GetClass Tgt) (GetClass Obj)
    then Stop (Fatal SameClassContract) log1
    else if Garbage Tgt
         then Stop (Fatal (Violation "Contract*" (GetClass Obj) n)) log1
         else (CheckClassInvariants fuel h (Some j) ;;
               CheckFields h Obj (CheckClassInvariants fuel h) post ;;
               CheckFunctions Obj (Functions Obj)) log1.
Proof.
  intros h fuel i Obj pre n C j Tgt post log log1 Hobj Hf Hpre Hj.
  rewrite (CheckClassInvariants_after_prefix _ _ _ _ _ _ _ _ _ Hobj Hf Hpre).
  unfold bind at 1. unfold CheckField, MakeField; simpl.
  change (CheckProperty h Obj (CheckClassInvariants fuel h) n "Contract*"
            (FObjectProperty C) (Some j) log1)
    with (CheckContract h Obj (CheckClassInvariants fuel h) n
            (FObjectProperty C) (Some j) log1).
  rewrite (CheckContract_pointee _ _ _ _ _ _ _ _ Hj).
  destruct (String.eqb (GetClass Tgt) (GetClass Obj)); [reflexivity|].
  destruct (Garbage Tgt); reflexivity.
Qed.

(** The amended C1 on a node that points to itself. *)
Lemma contract_guard_on_pointee_class_witness :
  Run 1 [NodeSelf] (Some 0%nat) = Stop (Fatal SameClassContract) [].
Proof.
  exact (contract_guard_on_pointee_class [NodeSelf] 0 0%nat NodeSelf
           [] "Next" "UNode" 0%nat NodeSelf [] [] []
           eq_refl eq_refl eq_refl eq_refl).
Defined.

(** C1 as stated fails: [Next] of [NodeA] is declared of the class of
    [NodeA] itself, yet no pass over [NodeA] ends in a configuration error.
    The referent is of a derived class, so the guard passes, and the pass
    ends in the data violation of the validity check. *)
Lemma contract_declared_type_counterexample :
  ~ (forall fuel, exists f log,
        Run (S fuel) NodeHeap (Some 0%nat) = Stop (Fatal f) log
        /\ tier f = ConfigurationError).
Proof.
  intros H. destruct (H 0%nat) as (f & log & Hrun & Htier).
  vm_compute in Hrun. inversion Hrun; subst. discriminate Htier.
Qed.

(** The guard on a null value: the class of the referent is read through
    the null pointer, ahead of the validity check that would report it. *)
Lemma CheckContract_null h Obj R n C log :
  CheckContract h Obj R n (FObjectProperty C) None log
  = Stop InvalidDereference log.
Proof. reflexivity. Qed.

(* ================================================================= *)
(** ** Parsing the range text *)

(** C2: "[0,100)" parses to an inclusive lower bound 0 and an exclusive
    upper bound 100, and with the separator [_] in both bounds
    "(1_000, 2_000]" parses to the exclusive lower bound 1000 and the
    inclusive upper bound 2000. The range text "(1_000, 2,000]" does not
    parse: what lies between the brackets is split at every comma, which
    gives three parts, and the tag is rejected as a configuration error
    before the bounds are sanitized, although the sanitizer, applied to the
    bound "2,000", removes the comma and leaves "2000". *)
Theorem range_parsing_examples :
  forall cls prop log,
    ParseRange cls prop "Range[0,100)" log
    = Done {| bLowerInclusive := true; bUpperInclusive := false;
              LowerTrimmed := "0"; UpperTrimmed := "100" |} log
    /\ FCString.Atoi64 "0" = 0 /\ FCString.Atoi64 "100" = 100
    /\ ParseRange cls prop "Range(1_000, 2,000]" log
       = Stop (Fatal (RangeBoundCount cls prop)) log
    /\ tier (RangeBoundCount cls prop) = ConfigurationError
    /\ ParseRange cls prop "Range(1_000, 2_000]" log
       = Done {| bLowerInclusive := false; bUpperInclusive := true;
                 LowerTrimmed := "1000"; UpperTrimmed := "2000" |} log
    /\ FCString.Atoi64 "1000" = 1000 /\ FCString.Atoi64 "2000" = 2000
    /\ FString.ParseIntoArray "1_000, 2,000" ","
       = ["1_000"; " 2"; "000"]
    /\ SanitizeNumberString "2,000" = "2000"
    /\ Run 1 [Single "UThing" "Range(1_000, 2,000]" FIntProperty 1500]
         (Some 0%nat)
       = Stop (Fatal (RangeBoundCount "UThing" "X")) [].
Proof.
  intros cls prop log. repeat split.
Qed.

(** No reading of the tag with a comma inside its upper bound gives the
    bounds 1000 and 2000. *)
Lemma range_thousands_comma_unparsed :
  ~ (exists b log,
        ParseRange "UThing" "X" "Range(1_000, 2,000]" [] = Done b log
        /\ FCString.Atoi64 (LowerTrimmed b) = 1000
        /\ FCString.Atoi64 (UpperTrimmed b) = 2000).
Proof.
  intros (b & log & H & _). vm_compute in H. discriminate H.
Qed.

(** C4: the closing bracket is not validated. The tag "Range[0,10" is
    accepted: its last character [0] is taken for the upper bracket, which
    makes the upper bound exclusive and leaves "0,1" between the brackets,
    and a property holding 0 passes. *)
Theorem range_missing_closing_bracket :
  (forall cls prop log,
      ParseRange cls prop "Range[0,10" log
      = Done {| bLowerInclusive := true; bUpperInclusive := false;
                LowerTrimmed := "0"; UpperTrimmed := "1" |} log)
  /\ Run 1 [Single "UThing" "Range[0,10" FIntProperty 0] (Some 0%nat)
     = Done tt []
  /\ Run 1 [Single "UThing" "Range[0,10" FIntProperty 5] (Some 0%nat)
     = Stop (Fatal (RangeViolation "UThing" "X")) [].
Proof.
  repeat split.
Qed.

(* ================================================================= *)
(** ** Optionals under MemSafeContainer *)

(** C3: the optional arm of [ValidateMemSafeContainer] answers [true] for
    every optional, set or not, whatever it holds: once the optional is set
    the address of its value is never null. A set optional that holds a null
    object pointer therefore passes, although the check of a pointer value
    rejects the null pointer and an array holding it is a violation. *)
Theorem optional_null_pointer_passes :
  (forall h ValueProperty (opt : ValueOf (FOptionalProperty ValueProperty)),
      ValidateMemSafeContainer h (FOptionalProperty ValueProperty) opt = true)
  /\ (forall h C, IsPointerPropertyValueValid h (FObjectProperty C) None = false)
  /\ Run 1 [Single "UThing" "MemSafeContainer"
              (FOptionalProperty (FObjectProperty "UObject")) (Some None)]
       (Some 0%nat) = Done tt []
  /\ Run 1 [Single "UThing" "MemSafeContainer"
              (FArrayProperty (FObjectProperty "UObject")) [None]]
       (Some 0%nat) = Stop (Fatal (ContainerViolation "UThing" "X")) [].
Proof.
  repeat split.
  intros h VP opt. simpl. destruct opt as [x|]; simpl.
  - destruct (IsPointerLikeProperty VP); reflexivity.
  - reflexivity.
Qed.

(* ================================================================= *)
(** ** Resolving the tag *)

(** Two texts that [operator==] takes for equal have the same lower-case
    form. *)
Lemma Equals_lower tag kw :
  FString.Equals tag kw = true -> FString.ToLower tag = FString.ToLower kw.
Proof.
  unfold FString.Equals. intros H. apply String.eqb_eq in H. exact H.
Qed.

Ltac resolve_keyword H :=
  apply Equals_lower in H; simpl in H;
  unfold CheckProperty, FString.Equals, FString.StartsWith;
  rewrite H; reflexivity.

(** A tag equal to a fixed keyword up to case selects that keyword's rule. *)
Lemma CheckProperty_keyword h Obj R n tag kw P (v : ValueOf P) :
  In kw ["MemSafe"; "MemSafeContainer"; "ID"; "Gte0"; "Gt0"; "Lte0"; "Lt0";
         "name"; "True"; "False"; "Contract*"] ->
  FString.Equals tag kw = true ->
  CheckProperty h Obj R n tag P v = CheckProperty h Obj R n kw P v.
Proof.
  intros Hin H. simpl in Hin.
  repeat (destruct Hin as [<-|Hin]; [resolve_keyword H|]).
  destruct Hin.
Qed.

(** C5, as amended. The dispatcher compares the tag with its fixed keywords
    ignoring letter case, and the keyword of the identifier rule is written
    "name": every tag equal to a fixed keyword up to case selects that
    keyword's rule, whatever the property, and for an identifier property
    whose tag is "name" up to case (so also "Name") the check is the one
    against the empty-identifier sentinel, a violation exactly when the
    value is that sentinel; the method lookup of the custom-predicate branch
    is not reached. *)
Theorem name_rule_up_to_case :
  (forall h Obj R n tag kw rule P (v : ValueOf P),
      In (kw, rule) (FixedRules h Obj R n P v) ->
      FString.Equals tag kw = true ->
      CheckProperty h Obj R n tag P v = rule)
  /\ (forall h Obj R n tag (v : FName) log,
         FString.Equals tag "name" = true ->
         CheckProperty h Obj R n tag FNameProperty v log
         = (if IsNone v
            then Stop (Fatal (Violation "name" (GetClass Obj) n)) log
            else Done tt log)
         /\ (forall P (w : ValueOf P),
                CheckProperty h Obj R n tag P w = CheckName Obj n P w)).
Proof.
  split.
  - intros h Obj R n tag kw rule P v Hin H.
    assert (Hkw : In kw ["MemSafe"; "MemSafeContainer"; "ID"; "Gte0"; "Gt0";
                         "Lte0"; "Lt0"; "name"; "True"; "False"; "Contract*"]).
    { apply (in_map fst) in Hin. exact Hin. }
    rewrite (CheckProperty_keyword h Obj R n tag kw P v Hkw H).
    unfold FixedRules in Hin. cbn [In] in Hin.
    repeat (destruct Hin as [Hin|Hin];
            [injection Hin as <- <-; reflexivity|]).
    destruct Hin.
  - intros h Obj R n tag v log H.
    assert (E : forall P (w : ValueOf P),
               CheckProperty h Obj R n tag P w = CheckName Obj n P w).
    { intros P w. rewrite (CheckProperty_keyword h Obj R n tag "name" P w).
      - reflexivity.
      - simpl. tauto.
      - exact H. }
    split; [|exact E].
    rewrite E. unfold CheckName, checkf. destruct (IsNone v); reflexivity.
Qed.

(** The amended C5 at the tag "memsafe" on a null object pointer, and at
    the tag "Name" on the value [NAME_None]. *)
Lemma name_rule_up_to_case_witness :
  CheckProperty [] (Single "UThing" "memsafe" (FObjectProperty "UObject") None)
    (fun _ => ret tt) "X" "memsafe" (FObjectProperty "UObject") None []
  = Stop (Fatal (Violation "MemSafe" "UThing" "X")) []
  /\ CheckProperty [] (Single "UThing" "Name" FNameProperty "None")
       (fun _ => ret tt) "X" "Name" FNameProperty "None" []
     = Stop (Fatal (Violation "name" "UThing" "X")) [].
Proof.
  split.
  - exact (f_equal (fun c => c [])
             (proj1 name_rule_up_to_case []
                (Single "UThing" "memsafe" (FObjectProperty "UObject") None)
                (fun _ => ret tt) "X" "memsafe" "MemSafe"
                (CheckMemSafe []
                   (Single "UThing" "memsafe" (FObjectProperty "UObject") None)
                   "X" (FObjectProperty "UObject") None)
                (FObjectProperty "UObject") None
                (or_introl eq_refl) eq_refl)).
  - exact (proj1 (proj2 name_rule_up_to_case []
                    (Single "UThing" "Name" FNameProperty "None")
                    (fun _ => ret tt) "X" "Name" "None" [] eq_refl)).
Defined.

(** C5 as stated fails: the tags "name" and "NAME" are not the text "Name",
    and both select the identifier rule. *)
Lemma keyword_exact_match_counterexample :
  "name" <> "Name" /\ "NAME" <> "Name"
  /\ Run 1 [Single "UThing" "name" FNameProperty "None"] (Some 0%nat)
     = Stop (Fatal (Violation "name" "UThing" "X")) []
  /\ Run 1 [Single "UThing" "NAME" FNameProperty "None"] (Some 0%nat)
     = Stop (Fatal (Violation "name" "UThing" "X")) [].
Proof.
  repeat split; discriminate.
Qed.

(* ================================================================= *)
(** ** Soft references *)

(** C6: the two paths judge a soft reference differently. A soft pointer
    that names a path whose target is not loaded is valid as an element of a
    container, where only the empty path is rejected, and is a violation on
    the direct MemSafe path, where the pointer is compared with [nullptr]
    and so must resolve to a live object. *)
Theorem soft_reference_paths_differ :
  (forall h Obj n c rest log,
      IsPointerPropertyValueValid h FSoftObjectProperty
        (PendingSoft (String c rest)) = true
      /\ IsPointerPropertyValueValid h FSoftClassProperty
           (PendingSoft (String c rest)) = true
      /\ CheckMemSafe h Obj n FSoftObjectProperty
           (PendingSoft (String c rest)) log
         = Stop (Fatal (Violation "MemSafe" (GetClass Obj) n)) log
      /\ CheckMemSafe h Obj n FSoftClassProperty
           (PendingSoft (String c rest)) log
         = Stop (Fatal (Violation "MemSafe" (GetClass Obj) n)) log)
  /\ Run 1 [Single "UThing" "MemSafe" FSoftObjectProperty
              (PendingSoft "/Game/Maps/Arena.Arena")] (Some 0%nat)
     = Stop (Fatal (Violation "MemSafe" "UThing" "X")) []
  /\ Run 1 [Single "UThing" "MemSafeContainer"
              (FArrayProperty FSoftObjectProperty)
              [PendingSoft "/Game/Maps/Arena.Arena"]] (Some 0%nat)
     = Done tt [].
Proof.
  repeat split.
Qed.

(* ================================================================= *)
(** ** Integer ranges *)

Lemma static_cast_Int32_id v :
  - 2 ^ 31 <= v < 2 ^ 31 -> static_cast Int32 v = v.
Proof.
  intros H. unfold static_cast. simpl is_signed. cbv iota.
  change (2 ^ bits Int32) with 4294967296.
  change (4294967296 / 2) with 2147483648.
  change (2 ^ 31) with 2147483648 in H.
  rewrite Z.mod_small by lia. lia.
Qed.

(** The signed 32-bit instance of the integer path, once the tag has been
    parsed. *)
Lemma CheckRange_signed_int32 cls n tag b (v : Z) log log' :
  ParseRange cls n tag log = Done b log' ->
  bBoundsHaveFloatMarker b = false ->
  CheckRange cls n tag FIntProperty v log =
  if FCString.Atoi64 (LowerTrimmed b) <=? FCString.Atoi64 (UpperTrimmed b)
  then
    let V := GetIntValue Int32 v in
    let LowerBound := static_cast Int32 (FCString.Atoi64 (LowerTrimmed b)) in
    let UpperBound := static_cast Int32 (FCString.Atoi64 (UpperTrimmed b)) in
    if (if bLowerInclusive b then V >=? LowerBound else V >? LowerBound)
       && (if bUpperInclusive b then V <=? UpperBound else V <? UpperBound)
    then Done tt log'
    else Stop (Fatal (RangeViolation cls n)) log'
  else Stop (Fatal RangeBoundOrder) log'.
Proof.
  intros Hp Hm. unfold CheckRange, bind. rewrite Hp.
  change (IsIntegerProperty FIntProperty) with true. cbv iota.
  rewrite Hm. cbv iota. unfold ret at 1. cbv beta iota.
  unfold TestIntegerProperty, RangeIntPredicate.
  change (is_signed Int32) with true. cbv iota.
  unfold bind, checkf.
  destruct (FCString.Atoi64 (LowerTrimmed b) <=? FCString.Atoi64 (UpperTrimmed b)).
  - unfold ret. cbv beta iota zeta.
    match goal with |- (if ?c then _ else _) _ = _ => destruct c end; reflexivity.
  - reflexivity.
Qed.

(** A pass over an object that has one tagged property and no function. *)
Lemma Run_Single fuel cls tag P (v : ValueOf P) :
  Run (S fuel) [Single cls tag P v] (Some 0%nat) =
  match CheckProperty [Single cls tag P v] (Single cls tag P v)
          (CheckClassInvariants fuel [Single cls tag P v]) "X" tag P v [] with
  | Done _ log => Done tt log
  | Stop e log => Stop e log
  end.
Proof.
  unfold Run. cbn -[CheckProperty]. unfold bind.
  destruct (CheckProperty _ _ _ _ _ _ _ _) as [[] l|e l]; reflexivity.
Qed.

(** The boundary behaviour of the integer path on a signed 32-bit property:
    with [Range[0,10]] a value passes exactly when it lies in [0..10], with
    [Range(0,10)] exactly when it lies in [1..9]. *)
Lemma int32_range_boundaries v :
  - 2 ^ 31 <= v < 2 ^ 31 ->
  Run 1 [Single "UThing" "Range[0,10]" FIntProperty v] (Some 0%nat)
  = (if (0 <=? v) && (v <=? 10) then Done tt []
     else Stop (Fatal (RangeViolation "UThing" "X")) [])
  /\ Run 1 [Single "UThing" "Range(0,10)" FIntProperty v] (Some 0%nat)
     = (if (0 <? v) && (v <? 10) then Done tt []
        else Stop (Fatal (RangeViolation "UThing" "X")) []).
Proof.
  intros H.
  assert (E : GetIntValue Int32 v = v) by (apply static_cast_Int32_id; exact H).
  split; rewrite Run_Single.
  - change (CheckProperty _ _ _ "X" "Range[0,10]" FIntProperty v [])
      with (CheckRange "UThing" "X" "Range[0,10]" FIntProperty v []).
    rewrite (CheckRange_signed_int32 "UThing" "X" "Range[0,10]"
               {| bLowerInclusive := true; bUpperInclusive := true;
                  LowerTrimmed := "0"; UpperTrimmed := "10" |} v [] [])
      by reflexivity.
    cbv [LowerTrimmed UpperTrimmed bLowerInclusive bUpperInclusive].
    change (FCString.Atoi64 "0") with 0. change (FCString.Atoi64 "10") with 10.
    change (static_cast Int32 0) with 0. change (static_cast Int32 10) with 10.
    change (0 <=? 10) with true. cbv iota. rewrite E, Z.geb_leb.
    destruct ((0 <=? v) && (v <=? 10)); reflexivity.
  - change (CheckProperty _ _ _ "X" "Range(0,10)" FIntProperty v [])
      with (CheckRange "UThing" "X" "Range(0,10)" FIntProperty v []).
    rewrite (CheckRange_signed_int32 "UThing" "X" "Range(0,10)"
               {| bLowerInclusive := false; bUpperInclusive := false;
                  LowerTrimmed := "0"; UpperTrimmed := "10" |} v [] [])
      by reflexivity.
    cbv [LowerTrimmed UpperTrimmed bLowerInclusive bUpperInclusive].
    change (FCString.Atoi64 "0") with 0. change (FCString.Atoi64 "10") with 10.
    change (static_cast Int32 0) with 0. change (static_cast Int32 10) with 10.
    change (0 <=? 10) with true. cbv iota. rewrite E, Z.gtb_ltb.
    destruct ((0 <? v) && (v <? 10)); reflexivity.
Qed.

(** C7: the unsigned arm of the integer path makes no assertion on the
    order of the bounds. On an unsigned 32-bit property tagged
    [Range[10,0]] the pass ends in the data violation of the range check,
    where the signed arm reports the bounds as a configuration error; no
    unsigned instance of the predicate ever stops. *)
Theorem unsigned_range_order_unchecked :
  Run 1 [Single "UThing" "Range[10,0]" FUInt32Property 5] (Some 0%nat)
  = Stop (Fatal (RangeViolation "UThing" "X")) []
  /\ tier (RangeViolation "UThing" "X") = DataViolation
  /\ Run 1 [Single "UThing" "Range[10,0]" FIntProperty 5] (Some 0%nat)
     = Stop (Fatal RangeBoundOrder) []
  /\ tier RangeBoundOrder = ConfigurationError
  /\ (forall b V log,
         Forall (fun T => exists r, RangeIntPredicate b T V log = Done r log)
           [UInt8; UInt16; UInt32; UInt64]).
Proof.
  repeat split.
  intros b V log. repeat constructor; eexists; reflexivity.
Qed.

(* ================================================================= *)
(** ** Rules applied to a property of the wrong shape *)

Lemma CheckID_not_integer Obj n P (v : ValueOf P) log :
  IsIntegerProperty P = false ->
  CheckID Obj n P v log = Stop (Fatal (Violation "ID" (GetClass Obj) n)) log.
Proof.
  intros H. destruct P; try discriminate H; reflexivity.
Qed.

Lemma CheckSign_not_arithmetic Obj rule Pred n P (v : ValueOf P) log :
  IsIntegerProperty P = false -> IsFloatProperty P = false ->
  CheckSign Obj rule Pred n P v log
  = Stop (Fatal (Violation rule (GetClass Obj) n)) log.
Proof.
  intros H H'. destruct P; try discriminate H; try discriminate H'; reflexivity.
Qed.

(* ================================================================= *)
(** ** Which functions a pass calls *)

Lemma Silent_ret {A} (a : A) : Silent (ret a).
Proof. intros log. reflexivity. Qed.

Lemma Silent_abort {A} (e : Abort) : Silent (@abort A e).
Proof. intros log. reflexivity. Qed.

Lemma Silent_fatal {A} (f : Failure) : Silent (@fatal A f).
Proof. intros log. reflexivity. Qed.

Lemma Silent_checkf c f : Silent (checkf c f).
Proof. intros log. destruct c; reflexivity. Qed.

Lemma Silent_bind {A B} (c : Check A) (k : A -> Check B) :
  Silent c -> (forall a, Silent (k a)) -> Silent (bind c k).
Proof.
  intros Hc Hk log. unfold bind. specialize (Hc log).
  destruct (c log) as [a l|e l]; simpl in Hc; subst l.
  - apply Hk.
  - reflexivity.
Qed.

Lemma Silent_if {A} (b : bool) (c1 c2 : Check A) :
  Silent c1 -> Silent c2 -> Silent (if b then c1 else c2).
Proof. destruct b; auto. Qed.

Create HintDb silent.
#[local] Hint Resolve Silent_ret Silent_abort Silent_fatal Silent_checkf
  Silent_if : silent.
#[local] Hint Extern 2 (Silent (bind _ _)) =>
  apply Silent_bind; [|intro] : silent.

Lemma Silent_TestIntegerProperty P Pred (v : ValueOf P) :
  (forall T V, Silent (Pred T V)) -> Silent (TestIntegerProperty P Pred v).
Proof. intros H. destruct P; simpl; auto with silent. Qed.

Lemma Silent_TestArithmeticProperty P Pred (v : ValueOf P) :
  (forall T V, Silent (on_int Pred T V)) ->
  (forall x, Silent (on_float Pred x)) ->
  Silent (TestArithmeticProperty P Pred v).
Proof.
  intros Hi Hf. unfold TestArithmeticProperty.
  apply Silent_bind; [apply Silent_TestIntegerProperty; exact Hi|].
  intros b. destruct b; [auto with silent|].
  destruct P; simpl; auto with silent.
Qed.

Lemma Silent_CompareWithInt cz cf c x P (v : ValueOf P) :
  Silent (TestArithmeticProperty P (CompareWithInt cz cf c x) v).
Proof.
  apply Silent_TestArithmeticProperty; intros; simpl; auto with silent.
Qed.

Lemma Silent_ParseRange cls prop tag : Silent (ParseRange cls prop tag).
Proof. unfold ParseRange. auto 10 with silent. Qed.

Lemma Silent_RangeIntPredicate b T V : Silent (RangeIntPredicate b T V).
Proof. unfold RangeIntPredicate. destruct (is_signed T); auto with silent. Qed.

Lemma Silent_CheckRange cls prop tag P (v : ValueOf P) :
  Silent (CheckRange cls prop tag P v).
Proof.
  unfold CheckRange.
  apply Silent_bind; [apply Silent_ParseRange|intros b].
  apply Silent_bind; [|auto with silent].
  repeat apply Silent_if; auto with silent.
  - apply Silent_bind; [auto with silent|intros _].
    apply Silent_TestIntegerProperty. apply Silent_RangeIntPredicate.
  - apply Silent_bind; [auto with silent|intros _].
    apply Silent_TestArithmeticProperty; intros; simpl; auto with silent.
Qed.

Lemma Silent_ConstOnly {A} (c : Check A) : Silent c -> ConstOnly c.
Proof. intros H log Hlog. rewrite H. exact Hlog. Qed.

Lemma ConstOnly_bind {A B} (c : Check A) (k : A -> Check B) :
  ConstOnly c -> (forall a, ConstOnly (k a)) -> ConstOnly (bind c k).
Proof.
  intros Hc Hk log Hlog. unfold bind. specialize (Hc log Hlog).
  destruct (c log) as [a l|e l]; simpl in Hc.
  - apply Hk. exact Hc.
  - exact Hc.
Qed.

(** A function is called only after its const flag has been checked. *)
Lemma ConstOnly_call {B} Obj F f (k : bool -> Check B) :
  (forall b, Silent (k b)) ->
  forall g (c : bool),
    ConstOnly (checkf (FUNC_Const F) f ;; checkf c g ;;
               b <- ProcessEvent Obj F ;; k b).
Proof.
  intros Hk g c log Hlog. unfold bind, checkf, ProcessEvent.
  destruct (FUNC_Const F) eqn:Hconst; simpl; [|exact Hlog].
  destruct c; simpl; [|exact Hlog].
  rewrite Hk. constructor; [exact Hconst|exact Hlog].
Qed.

Lemma ConstOnly_CheckCustom Obj n tag : ConstOnly (CheckCustom Obj n tag).
Proof.
  unfold CheckCustom. destruct (FindFunctionByName Obj tag) as [F|].
  - apply ConstOnly_call. intros b. auto with silent.
  - apply Silent_ConstOnly. auto with silent.
Qed.

Lemma ConstOnly_CheckFunction Obj F : ConstOnly (CheckFunction Obj F).
Proof.
  unfold CheckFunction. destruct (HasInvariant F).
  - intros log Hlog. unfold bind, checkf, ProcessEvent.
    destruct (FUNC_Const F) eqn:Hconst; simpl; [|exact Hlog].
    destruct (NumParms F =? 1)%nat; simpl; [|exact Hlog].
    destruct (IsBoolProperty (GetReturnProperty F)); simpl; [|exact Hlog].
    destruct (Returns F); simpl; constructor; assumption.
  - apply Silent_ConstOnly. auto with silent.
Qed.

Lemma ConstOnly_CheckFunctions Obj fs : ConstOnly (CheckFunctions Obj fs).
Proof.
  induction fs as [|F fs IH]; simpl.
  - apply Silent_ConstOnly. auto with silent.
  - apply ConstOnly_bind; [apply ConstOnly_CheckFunction|intros _; exact IH].
Qed.

Lemma ConstOnly_CheckContract h Obj R n P (v : ValueOf P) :
  (forall p, ConstOnly (R p)) -> ConstOnly (CheckContract h Obj R n P v).
Proof.
  intros HR.
  destruct P; simpl; try solve [apply Silent_ConstOnly; auto with silent].
  all: apply ConstOnly_bind;
    [apply Silent_ConstOnly; unfold ClassOf; destruct (Deref h v);
     auto with silent|intros cls].
  all: apply ConstOnly_bind; [apply Silent_ConstOnly; auto with silent|intros _].
  all: apply ConstOnly_bind; [apply Silent_ConstOnly; auto with silent|intros _].
  all: destruct (negb (IsNullptr v)); [apply HR|apply Silent_ConstOnly];
    auto with silent.
Qed.

Lemma ConstOnly_CheckProperty h Obj R n tag P (v : ValueOf P) :
  (forall p, ConstOnly (R p)) -> ConstOnly (CheckProperty h Obj R n tag P v).
Proof.
  intros HR. unfold CheckProperty.
  repeat match goal with
         | |- ConstOnly (if ?c then _ else _) => destruct c
         end.
  - apply Silent_ConstOnly. destruct P; simpl; auto with silent.
  - apply Silent_ConstOnly. unfold CheckMemSafeContainer. auto with silent.
  - apply Silent_ConstOnly. unfold CheckID.
    apply Silent_bind; [|auto with silent].
    apply Silent_TestIntegerProperty. intros; unfold IsNotIndexNone.
    auto with silent.
  - apply Silent_ConstOnly. unfold CheckSign.
    apply Silent_bind; [apply Silent_CompareWithInt|auto with silent].
  - apply Silent_ConstOnly. unfold CheckSign.
    apply Silent_bind; [apply Silent_CompareWithInt|auto with silent].
  - apply Silent_ConstOnly. unfold CheckSign.
    apply Silent_bind; [apply Silent_CompareWithInt|auto with silent].
  - apply Silent_ConstOnly. unfold CheckSign.
    apply Silent_bind; [apply Silent_CompareWithInt|auto with silent].
  - apply Silent_ConstOnly. apply Silent_CheckRange.
  - apply Silent_ConstOnly. destruct P; simpl; auto with silent.
  - apply Silent_ConstOnly. destruct P; simpl; auto with silent.
  - apply Silent_ConstOnly. destruct P; simpl; auto with silent.
  - apply ConstOnly_CheckContract. exact HR.
  - apply ConstOnly_CheckCustom.
Qed.

Lemma ConstOnly_CheckFields h Obj R fs :
  (forall p, ConstOnly (R p)) -> ConstOnly (CheckFields h Obj R fs).
Proof.
  intros HR. induction fs as [|f fs IH]; simpl.
  - apply Silent_ConstOnly. auto with silent.
  - apply ConstOnly_bind; [|intros _; exact IH].
    unfold CheckField. destruct (Invariant f).
    + apply ConstOnly_CheckProperty. exact HR.
    + apply Silent_ConstOnly. auto with silent.
Qed.

Lemma ConstOnly_CheckClassInvariants fuel h :
  forall p, ConstOnly (CheckClassInvariants fuel h p).
Proof.
  induction fuel as [|fuel IH]; intros p; simpl.
  - apply Silent_ConstOnly. auto with silent.
  - apply ConstOnly_bind; [apply Silent_ConstOnly; auto with silent|intros _].
    destruct (Deref h p) as [Obj|].
    + apply ConstOnly_bind.
      * apply ConstOnly_CheckFields. exact IH.
      * intros _. apply ConstOnly_CheckFunctions.
    + apply Silent_ConstOnly. auto with silent.
Qed.

Lemma CheckProperty_custom h Obj R n tag P (v : ValueOf P) :
  IsRuleKeyword tag = false ->
  CheckProperty h Obj R n tag P v = CheckCustom Obj n tag.
Proof.
  unfold IsRuleKeyword. intros H.
  repeat (apply orb_false_elim in H; destruct H as [H ?]).
  unfold CheckProperty.
  repeat match goal with
         | E : ?c = false |- context [if ?c then _ else _] => rewrite E
         end.
  reflexivity.
Qed.

Lemma CheckFunctions_app Obj pre rest log :
  CheckFunctions Obj (pre ++ rest)%list log =
  match CheckFunctions Obj pre log with
  | Done _ log' => CheckFunctions Obj rest log'
  | Stop e log' => Stop e log'
  end.
Proof.
  revert log. induction pre as [|F pre IH]; intros log; [reflexivity|].
  cbn [app CheckFunctions]. unfold bind.
  destruct (CheckFunction Obj F log) as [[] l|e l]; [apply IH|reflexivity].
Qed.

(** C9: a custom invariant method must be declared const. A method without
    the const flag is rejected as a configuration error and the call log
    is left as it was, whatever its parameters, its return type and its own
    metadata: on the branch of a property whose tag names the method,
    tagged itself or not, and in the loop over the functions tagged as
    invariants, named by the tag of a property or not, wherever the method
    stands among the functions of the class. Over a whole pass, every
    function that gets called is const. *)
Theorem nonconst_method_rejected_before_call :
  (forall h Obj R n tag P (v : ValueOf P) F log,
      IsRuleKeyword tag = false ->
      FindFunctionByName Obj tag = Some F ->
      FUNC_Const F = false ->
      CheckProperty h Obj R n tag P v log
      = Stop (Fatal (FunctionNotConst tag)) log
      /\ tier (FunctionNotConst tag) = ConfigurationError)
  /\ (forall Obj pre F rest log log1,
         CheckFunctions Obj pre log = Done tt log1 ->
         HasInvariant F = true ->
         FUNC_Const F = false ->
         CheckFunctions Obj (pre ++ F :: rest) log
         = Stop (Fatal (MethodNotConst (FuncName F) (GetClass Obj))) log1
         /\ tier (MethodNotConst (FuncName F) (GetClass Obj))
            = ConfigurationError)
  /\ (forall fuel heap p, AllConst (LogOf (Run fuel heap p))).
Proof.
  split; [|split].
  - intros h Obj R n tag P v F log Hkw Hfind Hconst.
    split; [|reflexivity].
    rewrite CheckProperty_custom by exact Hkw.
    unfold CheckCustom. rewrite Hfind. unfold bind, checkf.
    rewrite Hconst. reflexivity.
  - intros Obj pre F rest log log1 Hpre Hmeta Hconst.
    split; [|reflexivity].
    rewrite CheckFunctions_app, Hpre.
    cbn [CheckFunctions]. unfold bind, CheckFunction. rewrite Hmeta.
    unfold bind, checkf. rewrite Hconst. reflexivity.
  - intros fuel heap p. apply ConstOnly_CheckClassInvariants. constructor.
Qed.

(** C9 on [bool IsReady()] declared without const and without the
    metadata, named by the tag of a property, and on [bool Audit()]
    declared without const and tagged as an invariant, which no tag
    names. *)
Lemma nonconst_method_rejected_before_call_witness :
  CheckProperty [WithFunction IsReady_untagged] (WithFunction IsReady_untagged)
    (CheckClassInvariants 0 [WithFunction IsReady_untagged])
    "Count" "IsReady" FIntProperty 3 []
  = Stop (Fatal (FunctionNotConst "IsReady")) []
  /\ CheckFunctions (WithFunction Audit_nonconst)
       [IsReady_const; Audit_nonconst] []
     = Stop (Fatal (MethodNotConst "Audit" "UGadget"))
         [(WithFunction Audit_nonconst, IsReady_const)].
Proof.
  split.
  - exact (proj1 (proj1 nonconst_method_rejected_before_call
                    [WithFunction IsReady_untagged]
                    (WithFunction IsReady_untagged)
                    (CheckClassInvariants 0 [WithFunction IsReady_untagged])
                    "Count" "IsReady" FIntProperty 3 IsReady_untagged []
                    eq_refl eq_refl eq_refl)).
  - exact (proj1 (proj1 (proj2 nonconst_method_rejected_before_call)
                    (WithFunction Audit_nonconst) [IsReady_const]
                    Audit_nonconst [] []
                    [(WithFunction Audit_nonconst, IsReady_const)]
                    eq_refl eq_refl eq_refl)).
Defined.

(** The same object with the method declared const passes, and the method
    is called once for the property and once as a tagged function. *)
Lemma const_method_is_called :
  Run 1 [WithFunction IsReady_nonconst] (Some 0%nat)
  = Stop (Fatal (FunctionNotConst "IsReady")) []
  /\ Run 1 [WithFunction IsReady_const] (Some 0%nat)
     = Done tt [(WithFunction IsReady_const, IsReady_const);
                (WithFunction IsReady_const, IsReady_const)].
Proof.
  split; reflexivity.
Qed.

(** A pass cannot complete when one of the fields always stops. *)
Lemma pass_stops_at_field fuel h i Obj f log a log' :
  nth_error h i = Some Obj ->
  In f (Fields Obj) ->
  (forall R l1 l2, CheckField h Obj R f l1 <> Done tt l2) ->
  CheckClassInvariants fuel h (Some i) log <> Done a log'.
Proof.
  intros Hobj Hin Hstop Hdone.
  destruct (CheckClassInvariants_Done_each _ _ _ _ _ _ _ Hobj Hdone)
    as (fuel' & _ & Heach).
  destruct (Heach f Hin) as (l1 & l2 & E).
  exact (Hstop _ _ _ E).
Qed.

Lemma CheckProperty_sign h Obj R n rule bad P (v : ValueOf P) log :
  In (rule, bad) SignRules ->
  IsIntegerProperty P = false -> IsFloatProperty P = false ->
  CheckProperty h Obj R n rule P v log
  = Stop (Fatal (Violation rule (GetClass Obj) n)) log
  /\ CheckProperty h Obj R n rule FIntProperty bad log
     = Stop (Fatal (Violation rule (GetClass Obj) n)) log.
Proof.
  intros Hin Hi Hf. simpl in Hin.
  repeat (destruct Hin as [E|Hin];
          [injection E as <- <-; split;
           [apply (CheckSign_not_arithmetic Obj _ _ n P v log Hi Hf)
           |reflexivity]|]).
  destruct Hin.
Qed.

(** C10: ID on a property that is not of an integer type, and a sign rule
    on a property that is not arithmetic, never pass. The helper answers
    [false], so the field stops the pass, and the failure it reports is the
    very one a failing value of that rule gives, a data violation whose
    message is "Invariant=<rule> violation on <class>::<property>"; no
    message about the rule being misapplied is produced. *)
Theorem wrong_kind_reported_as_violation :
  forall h Obj R n P (v : ValueOf P) log,
    IsIntegerProperty P = false ->
    (CheckProperty h Obj R n "ID" P v log
     = Stop (Fatal (Violation "ID" (GetClass Obj) n)) log
     /\ CheckProperty h Obj R n "ID" FIntProperty INDEX_NONE log
        = Stop (Fatal (Violation "ID" (GetClass Obj) n)) log
     /\ (forall fuel i a l l',
            nth_error h i = Some Obj ->
            In (MakeField n "ID" P v) (Fields Obj) ->
            CheckClassInvariants fuel h (Some i) l <> Done a l'))
    /\ (IsFloatProperty P = false ->
        forall rule bad, In (rule, bad) SignRules ->
          CheckProperty h Obj R n rule P v log
          = Stop (Fatal (Violation rule (GetClass Obj) n)) log
          /\ CheckProperty h Obj R n rule FIntProperty bad log
             = Stop (Fatal (Violation rule (GetClass Obj) n)) log
          /\ (forall fuel i a l l',
                 nth_error h i = Some Obj ->
                 In (MakeField n rule P v) (Fields Obj) ->
                 CheckClassInvariants fuel h (Some i) l <> Done a l'))
    /\ (forall rule,
           tier (Violation rule (GetClass Obj) n) = DataViolation
           /\ message (Violation rule (GetClass Obj) n)
              = "Invariant=" ++ rule ++ " violation on " ++ GetClass Obj
                ++ "::" ++ n).
Proof.
  intros h Obj R n P v log Hi. split; [|split].
  - split; [|split].
    + apply (CheckID_not_integer Obj n P v log Hi).
    + reflexivity.
    + intros fuel i a l l' Hobj Hin.
      apply (pass_stops_at_field _ _ _ _ _ _ _ _ Hobj Hin).
      intros R' l1 l2. unfold CheckField, MakeField; simpl.
      change (CheckID Obj n P v l1 <> Done tt l2).
      rewrite (CheckID_not_integer Obj n P v l1 Hi). discriminate.
  - intros Hf rule bad Hin.
    destruct (CheckProperty_sign h Obj R n rule bad P v log Hin Hi Hf)
      as [H1 H2].
    split; [exact H1|split; [exact H2|]].
    intros fuel i a l l' Hobj Hin'.
    apply (pass_stops_at_field _ _ _ _ _ _ _ _ Hobj Hin').
    intros R' l1 l2. unfold CheckField, MakeField; simpl.
    destruct (CheckProperty_sign h Obj R' n rule bad P v l1 Hin Hi Hf)
      as [H1' _].
    rewrite H1'. discriminate.
  - intros rule. split; reflexivity.
Qed.

(** C10 on a name property tagged ID and on one tagged Gte0. *)
Lemma wrong_kind_reported_as_violation_witness :
  Run 1 [Single "UThing" "ID" FNameProperty "Bob"] (Some 0%nat)
  <> Done tt []
  /\ CheckProperty [] (Single "UThing" "Gte0" FNameProperty "Bob")
       (fun _ => ret tt) "X" "Gte0" FNameProperty "Bob" []
     = Stop (Fatal (Violation "Gte0" "UThing" "X")) [].
Proof.
  split.
  - destruct (wrong_kind_reported_as_violation
                [Single "UThing" "ID" FNameProperty "Bob"]
                (Single "UThing" "ID" FNameProperty "Bob")
                (fun _ => ret tt) "X" FNameProperty "Bob" [] eq_refl)
      as ((_ & _ & H) & _).
    exact (H 1%nat 0%nat tt [] [] eq_refl (or_introl eq_refl)).
  - destruct (wrong_kind_reported_as_violation
                [] (Single "UThing" "Gte0" FNameProperty "Bob")
                (fun _ => ret tt) "X" FNameProperty "Bob" [] eq_refl)
      as (_ & H & _).
    exact (proj1 (H eq_refl "Gte0" (-1) (or_introl eq_refl))).
Defined.

(* ================================================================= *)
(** ** Floating-point ranges *)

(** A tag that starts with "Range" is taken by the Range branch. *)
Lemma CheckProperty_range h Obj R n tag P (v : ValueOf P) :
  FString.StartsWith tag "Range" = true ->
  CheckProperty h Obj R n tag P v = CheckRange (GetClass Obj) n tag P v.
Proof.
  intros H. unfold CheckProperty. rewrite H.
  unfold FString.StartsWith in H. unfold FString.Equals.
  change (FString.ToLower "Range") with "range" in H.
  destruct (FString.ToLower tag) as [|c s]; cbn [FString.IsPrefix] in H;
    [discriminate H|].
  apply andb_true_iff in H. destruct H as [E _].
  apply Ascii.eqb_eq in E. subst c. reflexivity.
Qed.

(** The lambda of the floating-point path computes the widened range of the
    specification. *)
Lemma RangeFloatBody_spec LowerD UpperD bLI bUI Value :
  RangeFloatBody LowerD UpperD bLI bUI Value
  = in_widened_range LowerD UpperD bLI bUI Value.
Proof. reflexivity. Qed.

Lemma CheckRange_float cls n tag P (v : ValueOf P) b log log' :
  IsFloatProperty P = true ->
  ParseRange cls n tag log = Done b log' ->
  CheckRange cls n tag P v log =
  if PrimFloat.leb (FCString.Atod (LowerTrimmed b))
       (FCString.Atod (UpperTrimmed b))
  then if RangeFloatBody (FCString.Atod (LowerTrimmed b))
            (FCString.Atod (UpperTrimmed b))
            (bLowerInclusive b) (bUpperInclusive b) (DoubleValue P v)
       then Done tt log'
       else Stop (Fatal (RangeViolation cls n)) log'
  else Stop (Fatal (RangeBoundOrderOn cls n)) log'.
Proof.
  intros HP Hp. unfold CheckRange, bind. rewrite Hp.
  destruct P; try discriminate HP.
  all: change (IsIntegerProperty _) with false;
    change (IsFloatProperty _) with true; cbv iota;
    unfold checkf;
    destruct (PrimFloat.leb (FCString.Atod (LowerTrimmed b))
                (FCString.Atod (UpperTrimmed b))); [|reflexivity];
    unfold ret at 1; cbv beta iota;
    unfold TestArithmeticProperty, TestIntegerProperty, bind, ret,
      RangeFloatPredicate, on_float, DoubleValue; cbv beta iota;
    destruct (RangeFloatBody _ _ _ _ v); reflexivity.
Qed.

(** C8: on a float or double property with a Range tag, the bounds are
    parsed as doubles, a lower bound above the upper one is a configuration
    error, and the value passes exactly when it lies in the range widened
    outward by the adaptive epsilon
    [clamp(max(1, |lower|, |upper|, |value|) * 1e-6, 1e-10, 1e-3)], with the
    inclusive or exclusive comparison of each side made against
    [lower - epsilon] and [upper + epsilon]. With [Range[0.0,1.0]] the
    value 1.0000001 passes, as a double and as the nearest float, and 1.1
    fails. *)
Theorem float_range_widened_by_epsilon :
  (forall h Obj R n tag P (v : ValueOf P) b log log',
      FString.StartsWith tag "Range" = true ->
      IsFloatProperty P = true ->
      ParseRange (GetClass Obj) n tag log = Done b log' ->
      CheckProperty h Obj R n tag P v log =
      if PrimFloat.leb (FCString.Atod (LowerTrimmed b))
           (FCString.Atod (UpperTrimmed b))
      then if in_widened_range (FCString.Atod (LowerTrimmed b))
                (FCString.Atod (UpperTrimmed b))
                (bLowerInclusive b) (bUpperInclusive b) (DoubleValue P v)
           then Done tt log'
           else Stop (Fatal (RangeViolation (GetClass Obj) n)) log'
      else Stop (Fatal (RangeBoundOrderOn (GetClass Obj) n)) log')
  /\ Run 1 [Single "UThing" "Range[0.0,1.0]" FDoubleProperty
              (FCString.Atod "1.0000001")] (Some 0%nat) = Done tt []
  /\ Run 1 [Single "UThing" "Range[0.0,1.0]" FFloatProperty
              0x1.000002p+0%float] (Some 0%nat) = Done tt []
  /\ Run 1 [Single "UThing" "Range[0.0,1.0]" FDoubleProperty
              (FCString.Atod "1.1")] (Some 0%nat)
     = Stop (Fatal (RangeViolation "UThing" "X")) []
  /\ Run 1 [Single "UThing" "Range[0.0,1.0]" FFloatProperty
              0x1.19999ap+0%float] (Some 0%nat)
     = Stop (Fatal (RangeViolation "UThing" "X")) []
  /\ Run 1 [Single "UThing" "Range[1.0,0.0]" FDoubleProperty
              (FCString.Atod "0.5")] (Some 0%nat)
     = Stop (Fatal (RangeBoundOrderOn "UThing" "X")) [].
Proof.
  split; [|repeat split].
  intros h Obj R n tag P v b log log' Htag HP Hp.
  rewrite CheckProperty_range by exact Htag.
  rewrite (CheckRange_float _ _ _ _ _ _ _ _ HP Hp).
  rewrite RangeFloatBody_spec. reflexivity.
Qed.

(** C8 on a double property tagged [Range[0.0,1.0]] that holds 1.0000001. *)
Lemma float_range_widened_by_epsilon_witness :
  CheckProperty [] (Single "UThing" "Range[0.0,1.0]" FDoubleProperty
                      (FCString.Atod "1.0000001"))
    (fun _ => ret tt) "X" "Range[0.0,1.0]" FDoubleProperty
    (FCString.Atod "1.0000001") []
  = Done tt [].
Proof.
  exact (proj1 float_range_widened_by_epsilon []
           (Single "UThing" "Range[0.0,1.0]" FDoubleProperty
              (FCString.Atod "1.0000001"))
           (fun _ => ret tt) "X" "Range[0.0,1.0]" FDoubleProperty
           (FCString.Atod "1.0000001")
           {| bLowerInclusive := true; bUpperInclusive := true;
              LowerTrimmed := "0.0"; UpperTrimmed := "1.0" |} [] []
           eq_refl eq_refl eq_refl).
Defined.

(* ================================================================= *)
(** ** The pointer rules beyond the claims *)

(** X1: on every property that is not a soft pointer, the direct MemSafe
    rule and the check of a container element agree: the rule passes
    exactly when the property is pointer-like and the element check accepts
    its value; a property that is not pointer-like is a configuration
    error. *)
Theorem memsafe_direct_agrees_with_oracle :
  forall h Obj n P (v : ValueOf P) log,
    P <> FSoftObjectProperty -> P <> FSoftClassProperty ->
    CheckMemSafe h Obj n P v log =
    if IsPointerLikeProperty P
    then if IsPointerPropertyValueValid h P v
         then Done tt log
         else Stop (Fatal (Violation "MemSafe" (GetClass Obj) n)) log
    else Stop (Fatal (UsedOnNon "MemSafe" "pointer" (GetClass Obj) n)) log.
Proof.
  intros h Obj n P v log H1 H2.
  destruct P; try contradiction; simpl; unfold checkf;
    try reflexivity;
    match goal with
    | |- (if ?c then _ else _) _ = _ => destruct c; reflexivity
    end.
Qed.

(** X1 on a null object pointer. *)
Lemma memsafe_direct_agrees_with_oracle_witness :
  CheckMemSafe [] (Single "UThing" "MemSafe" (FObjectProperty "UObject") None)
    "X" (FObjectProperty "UObject") None []
  = Stop (Fatal (Violation "MemSafe" "UThing" "X")) [].
Proof.
  apply (memsafe_direct_agrees_with_oracle []
           (Single "UThing" "MemSafe" (FObjectProperty "UObject") None)
           "X" (FObjectProperty "UObject") None []); discriminate.
Defined.

Lemma forallb_false_exists {A} (f : A -> bool) (l : list A) :
  forallb f l = false <-> exists x, In x l /\ f x = false.
Proof.
  induction l as [|a l IH]; simpl.
  - split; [discriminate|]. intros (x & [] & _).
  - rewrite andb_false_iff, IH. split.
    + intros [Ha|(x & Hin & Hx)]; [exists a|exists x]; auto.
    + intros (x & [->|Hin] & Hx); [left|right; exists x]; auto.
Qed.

(** The slots a loop below [Num()] visits, by their index. *)
Lemma In_firstn_nth_error {A} (l : list A) n x :
  In x (firstn n l) <-> exists i, (i < n)%nat /\ nth_error l i = Some x.
Proof.
  revert l. induction n as [|n IH]; intros l.
  - simpl. split; [intros []|]. intros (i & Hi & _). lia.
  - destruct l as [|a l]; simpl.
    + split; [intros []|]. intros (i & _ & Hi). destruct i; discriminate Hi.
    + rewrite IH. split.
      * intros [->|(i & Hi & Hx)].
        -- exists 0%nat. split; [lia|reflexivity].
        -- exists (S i). split; [lia|exact Hx].
      * intros ([|i] & Hi & Hx).
        -- left. injection Hx as ->. reflexivity.
        -- right. exists i. split; [lia|exact Hx].
Qed.

(** Without a free slot the loop visits every slot. *)
Lemma VisitedSlots_compact {A} (l : list A) :
  VisitedSlots (map Some l) = map Some l.
Proof.
  unfold VisitedSlots, HelperNum.
  replace (filter IsSet (map Some l)) with (map Some l).
  - apply firstn_all.
  - induction l as [|a l IH]; simpl; [reflexivity|]. rewrite <- IH. reflexivity.
Qed.

(** X2: an array fails MemSafeContainer exactly when its element type is
    pointer-like and one of its elements is an invalid pointer. A set fails
    exactly when its element type is pointer-like and an invalid pointer
    sits in a slot whose index is below the number of elements of the set,
    which is where the loop stops: for a set without free slots that is
    every element, and an invalid element behind a free slot is not
    seen. *)
Theorem array_and_set_fail_iff_invalid_element :
  forall h Elem,
    (forall arr : list (ValueOf Elem),
        ValidateMemSafeContainer h (FArrayProperty Elem) arr = false <->
        IsPointerLikeProperty Elem = true
        /\ exists e, In e arr /\ IsPointerPropertyValueValid h Elem e = false)
    /\ (forall slots : list (option (ValueOf Elem)),
           ValidateMemSafeContainer h (FSetProperty Elem) slots = false <->
           IsPointerLikeProperty Elem = true
           /\ exists i e, (i < HelperNum slots)%nat
                          /\ nth_error slots i = Some (Some e)
                          /\ IsPointerPropertyValueValid h Elem e = false)
    /\ (forall elems : list (ValueOf Elem),
           ValidateMemSafeContainer h (FSetProperty Elem) (map Some elems)
           = false <->
           IsPointerLikeProperty Elem = true
           /\ exists e, In e elems
                        /\ IsPointerPropertyValueValid h Elem e = false)
    /\ (forall C,
           IsPointerPropertyValueValid h (FObjectProperty C) None = false
           /\ ValidateMemSafeContainer h (FSetProperty (FObjectProperty C))
                [None; Some None] = true
           /\ ValidateMemSafeContainer h (FSetProperty (FObjectProperty C))
                [Some None; None] = false).
Proof.
  intros h Elem.
  assert (Hset : forall slots : list (option (ValueOf Elem)),
             ValidateMemSafeContainer h (FSetProperty Elem) slots = false <->
             IsPointerLikeProperty Elem = true
             /\ exists e, In (Some e) (VisitedSlots slots)
                          /\ IsPointerPropertyValueValid h Elem e = false).
  { intros slots. simpl. destruct (IsPointerLikeProperty Elem); simpl.
    - rewrite forallb_false_exists. split.
      + intros ([e|] & Hin & He); [|discriminate He].
        split; [reflexivity|]. exists e. auto.
      + intros (_ & e & Hin & He). exists (Some e). auto.
    - split; [discriminate|]. intros [H _]; discriminate H. }
  split; [|split; [|split]].
  - intros arr. simpl. destruct (IsPointerLikeProperty Elem); simpl.
    + rewrite forallb_false_exists. tauto.
    + split; [discriminate|]. intros [H _]; discriminate H.
  - intros slots. rewrite Hset. split.
    + intros (Hp & e & Hin & He). split; [exact Hp|].
      apply In_firstn_nth_error in Hin. destruct Hin as (i & Hi & Hx).
      exists i, e. auto.
    + intros (Hp & i & e & Hi & Hx & He). split; [exact Hp|].
      exists e. split; [|exact He].
      apply In_firstn_nth_error. exists i. auto.
  - intros elems. rewrite Hset, VisitedSlots_compact. split.
    + intros (Hp & e & Hin & He). split; [exact Hp|]. exists e.
      split; [|exact He].
      apply in_map_iff in Hin. destruct Hin as (x & Hx & Hin).
      injection Hx as <-. exact Hin.
    + intros (Hp & e & Hin & He). split; [exact Hp|]. exists e.
      split; [|exact He]. apply in_map. exact Hin.
  - intros C. repeat split.
Qed.

(** X3: a map fails MemSafeContainer exactly when a pair with an invalid
    pointer as its key, the key type being pointer-like, or as its value,
    the value type being pointer-like, sits in a slot whose index is below
    the number of pairs of the map: for a map without free slots that is
    every pair, and a pair behind a free slot is not seen. *)
Theorem map_fails_iff_invalid_key_or_value :
  forall h K V,
    (forall slots : list (option (ValueOf K * ValueOf V)),
        ValidateMemSafeContainer h (FMapProperty K V) slots = false <->
        exists i k v, (i < HelperNum slots)%nat
          /\ nth_error slots i = Some (Some (k, v))
          /\ ((IsPointerLikeProperty K = true
               /\ IsPointerPropertyValueValid h K k = false)
              \/ (IsPointerLikeProperty V = true
                  /\ IsPointerPropertyValueValid h V v = false)))
    /\ (forall pairs : list (ValueOf K * ValueOf V),
           ValidateMemSafeContainer h (FMapProperty K V) (map Some pairs)
           = false <->
           exists k v, In (k, v) pairs
             /\ ((IsPointerLikeProperty K = true
                  /\ IsPointerPropertyValueValid h K k = false)
                 \/ (IsPointerLikeProperty V = true
                     /\ IsPointerPropertyValueValid h V v = false)))
    /\ (forall C (k : Z),
           ValidateMemSafeContainer h
             (FMapProperty FIntProperty (FObjectProperty C))
             [None; Some (k, None)] = true
           /\ ValidateMemSafeContainer h
                (FMapProperty FIntProperty (FObjectProperty C))
                [Some (k, None); None] = false).
Proof.
  intros h K V.
  assert (Hmap : forall slots : list (option (ValueOf K * ValueOf V)),
             ValidateMemSafeContainer h (FMapProperty K V) slots = false <->
             exists k v, In (Some (k, v)) (VisitedSlots slots)
               /\ ((IsPointerLikeProperty K = true
                    /\ IsPointerPropertyValueValid h K k = false)
                   \/ (IsPointerLikeProperty V = true
                       /\ IsPointerPropertyValueValid h V v = false))).
  { intros slots. simpl.
    destruct (IsPointerLikeProperty K) eqn:EK,
             (IsPointerLikeProperty V) eqn:EV; simpl;
      try rewrite forallb_false_exists.
    - split.
      + intros ([[k v]|] & Hin & H); [|discriminate H].
        exists k, v. split; [exact Hin|].
        apply andb_false_iff in H. destruct H; auto.
      + intros (k & v & Hin & H). exists (Some (k, v)). split; [exact Hin|].
        apply andb_false_iff. destruct H as [[_ H]|[_ H]]; auto.
    - split.
      + intros ([[k v]|] & Hin & H); [|discriminate H].
        exists k, v. split; [exact Hin|].
        rewrite andb_true_r in H. auto.
      + intros (k & v & Hin & H). exists (Some (k, v)). split; [exact Hin|].
        rewrite andb_true_r.
        destruct H as [[_ H]|[H _]]; [exact H|discriminate H].
    - split.
      + intros ([[k v]|] & Hin & H); [|discriminate H].
        exists k, v. split; [exact Hin|]. simpl in H. auto.
      + intros (k & v & Hin & H). exists (Some (k, v)). split; [exact Hin|].
        simpl. destruct H as [[H _]|[_ H]]; [discriminate H|exact H].
    - split; [discriminate|].
      intros (k & v & _ & [[H _]|[H _]]); discriminate H. }
  split; [|split].
  - intros slots. rewrite Hmap. split.
    + intros (k & v & Hin & H).
      apply In_firstn_nth_error in Hin. destruct Hin as (i & Hi & Hx).
      exists i, k, v. auto.
    + intros (i & k & v & Hi & Hx & H). exists k, v. split; [|exact H].
      apply In_firstn_nth_error. exists i. auto.
  - intros pairs. rewrite Hmap, VisitedSlots_compact. split.
    + intros (k & v & Hin & H). exists k, v. split; [|exact H].
      apply in_map_iff in Hin. destruct Hin as (x & Hx & Hin).
      injection Hx as <-. exact Hin.
    + intros (k & v & Hin & H). exists k, v. split; [|exact H].
      apply (in_map Some) in Hin. exact Hin.
  - intros C k. split; reflexivity.
Qed.

(* ================================================================= *)
(** ** The order of a pass *)

(** X4: a pass reports the first field that fails, in the order of the
    field iterator: once the fields before [f] have passed and [f] stops
    with [e], the whole pass stops with [e], whatever the fields after [f]
    hold and whatever the tagged functions would answer. *)
Theorem first_failing_field_is_reported :
  forall fuel h i Obj pre f post log log1 e log2,
    nth_error h i = Some Obj ->
    Fields Obj = (pre ++ f :: post)%list ->
    CheckFields h Obj (CheckClassInvariants fuel h) pre log = Done tt log1 ->
    CheckField h Obj (CheckClassInvariants fuel h) f log1 = Stop e log2 ->
    CheckClassInvariants (S fuel) h (Some i) log = Stop e log2.
Proof.
  intros fuel h i Obj pre f post log log1 e log2 Hobj Hf Hpre Hstop.
  rewrite (CheckClassInvariants_after_prefix _ _ _ _ _ _ _ _ _ Hobj Hf Hpre).
  unfold bind at 1. rewrite Hstop. reflexivity.
Qed.

(** X4 on an object whose [Count], tagged Gte0, holds -1 and whose
    [Target], tagged MemSafe, is null: [Count] is reported. *)
Lemma first_failing_field_is_reported_witness :
  CheckClassInvariants 1 [CountAndTarget] (Some 0%nat) []
  = Stop (Fatal (Violation "Gte0" "UThing" "Count")) [].
Proof.
  exact (first_failing_field_is_reported 0 [CountAndTarget] 0%nat
           CountAndTarget []
           (MakeField "Count" "Gte0" FIntProperty (-1))
           [MakeField "Target" "MemSafe" (FObjectProperty "UObject") None]
           [] [] (Fatal (Violation "Gte0" "UThing" "Count")) []
           eq_refl eq_refl eq_refl eq_refl).
Defined.

(** X5: properties without the "Invariant" metadata, and functions without
    it, take no part in a pass: the loops give the same result on the
    tagged ones alone. *)
Theorem untagged_members_are_skipped :
  forall h Obj R fs Fs log,
    CheckFields h Obj R fs log
    = CheckFields h Obj R (filter HasMetaData fs) log
    /\ CheckFunctions Obj Fs log
       = CheckFunctions Obj (filter HasInvariant Fs) log.
Proof.
  intros h Obj R fs Fs log. split.
  - revert log. induction fs as [|f fs IH]; intros log; [reflexivity|].
    cbn [filter CheckFields]. unfold HasMetaData at 1.
    destruct (Invariant f) as [tag|] eqn:E; cbn [IsSet].
    + cbn [CheckFields]. unfold bind.
      destruct (CheckField h Obj R f log) as [[] l|e l];
        [apply IH|reflexivity].
    + unfold bind, CheckField. rewrite E. apply IH.
  - revert log. induction Fs as [|F Fs IH]; intros log; [reflexivity|].
    cbn [filter CheckFunctions].
    destruct (HasInvariant F) eqn:E.
    + cbn [CheckFunctions]. unfold bind.
      destruct (CheckFunction Obj F log) as [[] l|e l];
        [apply IH|reflexivity].
    + unfold bind, CheckFunction. rewrite E. apply IH.
Qed.

(** A pass that reaches a Contract* field pointing to [Tgt]. *)
Lemma CheckClassInvariants_at_contract h fuel i Obj pre n C j Tgt post log log1 :
  nth_error h i = Some Obj ->
  Fields Obj =
    (pre ++ MakeField n "Contract*" (FObjectProperty C) (Some j) :: post)%list ->
  CheckFields h Obj (CheckClassInvariants fuel h) pre log = Done tt log1 ->
  nth_error h j = Some Tgt ->
  CheckClassInvariants (S fuel) h (Some i) log =
  if String.eqb (GetClass Tgt) (GetClass Obj)
  then Stop (Fatal SameClassContract) log1
  else if Garbage Tgt
       then Stop (Fatal (Violation "Contract*" (GetClass Obj) n)) log1
       else (CheckClassInvariants fuel h (Some j) ;;
             CheckFields h Obj (CheckClassInvariants fuel h) post ;;
             CheckFunctions Obj (Functions Obj)) log1.
Proof.
  intros Hobj Hf Hpre Hj.
  rewrite (CheckClassInvariants_after_prefix _ _ _ _ _ _ _ _ _ Hobj Hf Hpre).
  unfold bind at 1. unfold CheckField, MakeField; simpl.
  change (CheckProperty h Obj (CheckClassInvariants fuel h) n "Contract*"
            (FObjectProperty C) (Some j) log1)
    with (CheckContract h Obj (CheckClassInvariants fuel h) n
            (FObjectProperty C) (Some j) log1).
  rewrite (CheckContract_pointee _ _ _ _ _ _ _ _ Hj).
  destruct (String.eqb (GetClass Tgt) (GetClass Obj)); [reflexivity|].
  destruct (Garbage Tgt); reflexivity.
Qed.

(** X6: two live objects of different classes, each with a first field
    tagged Contract* that points to the other, make the pass recurse
    without end: whatever the budget, it is the budget that runs out. The
    same-class guard does not see a loop through two classes. *)
Theorem mutual_contract_never_settles :
  forall h i j A B n1 C1 rest1 n2 C2 rest2,
    nth_error h i = Some A ->
    nth_error h j = Some B ->
    Fields A = MakeField n1 "Contract*" (FObjectProperty C1) (Some j) :: rest1 ->
    Fields B = MakeField n2 "Contract*" (FObjectProperty C2) (Some i) :: rest2 ->
    GetClass A <> GetClass B ->
    Garbage A = false -> Garbage B = false ->
    forall fuel log,
      CheckClassInvariants fuel h (Some i) log = Stop OutOfFuel log
      /\ CheckClassInvariants fuel h (Some j) log = Stop OutOfFuel log.
Proof.
  intros h i j A B n1 C1 rest1 n2 C2 rest2 HA HB HfA HfB Hcls HgA HgB.
  assert (EAB : String.eqb (GetClass B) (GetClass A) = false)
    by (apply String.eqb_neq; congruence).
  assert (EBA : String.eqb (GetClass A) (GetClass B) = false)
    by (apply String.eqb_neq; congruence).
  induction fuel as [|fuel IH]; intros log.
  - split; reflexivity.
  - split.
    + rewrite (CheckClassInvariants_at_contract h fuel i A [] n1 C1 j B
                 rest1 log log HA HfA eq_refl HB).
      rewrite EAB, HgB. unfold bind.
      destruct (IH log) as [_ Hj]. unfold ObjId in *. rewrite Hj. reflexivity.
    + rewrite (CheckClassInvariants_at_contract h fuel j B [] n2 C2 i A
                 rest2 log log HB HfB eq_refl HA).
      rewrite EBA, HgA. unfold bind.
      destruct (IH log) as [Hi _]. unfold ObjId in *. rewrite Hi. reflexivity.
Qed.

(** X6 on two objects of the classes UOwner and UPet that require each
    other, with a budget of a hundred. *)
Lemma mutual_contract_never_settles_witness :
  Run 100 [Owner; Pet] (Some 0%nat) = Stop OutOfFuel [].
Proof.
  refine (proj1 (mutual_contract_never_settles [Owner; Pet] 0%nat 1%nat
                   Owner Pet "Pet" "UPet" [] "Owner" "UOwner" []
                   eq_refl eq_refl eq_refl eq_refl _ eq_refl eq_refl
                   100%nat [])).
  discriminate.
Defined.

(* ================================================================= *)
(** ** Reference structures without a cycle *)

Lemma Settled_bind {A B} (c : Check A) (k : A -> Check B) log :
  Settled (bind c k log) -> Settled (c log).
Proof.
  unfold bind. destruct (c log) as [a l|e l]; simpl; auto.
Qed.

Lemma Extends_CheckContract h Obj R1 R2 n P (v : ValueOf P) log :
  Extends R1 R2 ->
  Settled (CheckContract h Obj R1 n P v log) ->
  CheckContract h Obj R2 n P v log = CheckContract h Obj R1 n P v log.
Proof.
  intros HR. destruct P; simpl; try reflexivity.
  all: unfold bind; destruct (ClassOf h v log) as [cls l|e l];
    [|reflexivity];
    destruct (checkf _ SameClassContract l) as [[] l1|e l1]; [|reflexivity];
    destruct (checkf (IsValid h v) _ l1) as [[] l2|e l2]; [|reflexivity];
    destruct (negb (IsNullptr v)); [|reflexivity];
    intros Hs; apply HR; exact Hs.
Qed.

Lemma Extends_CheckProperty h Obj R1 R2 n tag P (v : ValueOf P) log :
  Extends R1 R2 ->
  Settled (CheckProperty h Obj R1 n tag P v log) ->
  CheckProperty h Obj R2 n tag P v log = CheckProperty h Obj R1 n tag P v log.
Proof.
  intros HR. unfold CheckProperty.
  repeat match goal with
         | |- context [if ?c then _ else _] => destruct c; try reflexivity
         end.
  apply Extends_CheckContract. exact HR.
Qed.

Lemma Extends_CheckFields h Obj R1 R2 fs :
  Extends R1 R2 ->
  forall log,
    Settled (CheckFields h Obj R1 fs log) ->
    CheckFields h Obj R2 fs log = CheckFields h Obj R1 fs log.
Proof.
  intros HR. induction fs as [|f fs IH]; intros log Hs; [reflexivity|].
  cbn [CheckFields] in *.
  assert (E : CheckField h Obj R2 f log = CheckField h Obj R1 f log).
  { apply Settled_bind in Hs. unfold CheckField in *.
    destruct (Invariant f); [|reflexivity].
    apply Extends_CheckProperty; assumption. }
  unfold bind in *. rewrite E.
  destruct (CheckField h Obj R1 f log) as [[] l|e l]; [|reflexivity].
  apply IH. exact Hs.
Qed.

Lemma CheckClassInvariants_S fuel h p :
  CheckClassInvariants (S fuel) h p =
  (checkf (negb (IsNullptr p)) Precondition ;;
   match Deref h p with
   | None => abort InvalidDereference
   | Some Obj =>
       CheckFields h Obj (CheckClassInvariants fuel h) (Fields Obj) ;;
       CheckFunctions Obj (Functions Obj)
   end).
Proof. reflexivity. Qed.

Lemma Extends_one_more fuel h :
  Extends (CheckClassInvariants fuel h) (CheckClassInvariants (S fuel) h).
Proof.
  induction fuel as [|fuel IH]; intros p log Hs.
  - destruct Hs.
  - rewrite (CheckClassInvariants_S (S fuel)).
    rewrite (CheckClassInvariants_S fuel) in *.
    unfold bind at 1. unfold bind at 2. unfold bind at 1 in Hs.
    destruct (checkf (negb (IsNullptr p)) Precondition log) as [[] l|e l];
      [|reflexivity].
    destruct (Deref h p) as [Obj|]; [|reflexivity].
    assert (E : CheckFields h Obj (CheckClassInvariants (S fuel) h)
                  (Fields Obj) l
                = CheckFields h Obj (CheckClassInvariants fuel h)
                    (Fields Obj) l).
    { apply Extends_CheckFields.
      - exact IH.
      - apply Settled_bind in Hs. exact Hs. }
    unfold bind. rewrite E. reflexivity.
Qed.

Lemma CheckClassInvariants_more_fuel fuel fuel' h p log :
  (fuel <= fuel')%nat ->
  Settled (CheckClassInvariants fuel h p log) ->
  CheckClassInvariants fuel' h p log = CheckClassInvariants fuel h p log.
Proof.
  intros Hle Hs.
  induction Hle as [|m Hle IH]; [reflexivity|].
  rewrite <- IH. apply Extends_one_more. rewrite IH. exact Hs.
Qed.

Lemma Total_ret {A} (a : A) : Total (ret a).
Proof. intros log. exact I. Qed.

Lemma Total_fatal {A} (f : Failure) : Total (@fatal A f).
Proof. intros log. exact I. Qed.

Lemma Total_checkf c f : Total (checkf c f).
Proof. intros log. destruct c; exact I. Qed.

Lemma Total_bind {A B} (c : Check A) (k : A -> Check B) :
  Total c -> (forall a, Total (k a)) -> Total (bind c k).
Proof.
  intros Hc Hk log. unfold bind. specialize (Hc log).
  destruct (c log) as [a l|e l]; [apply Hk|exact Hc].
Qed.

Lemma Total_if {A} (b : bool) (c1 c2 : Check A) :
  Total c1 -> Total c2 -> Total (if b then c1 else c2).
Proof. destruct b; auto. Qed.

Lemma Total_ProcessEvent Obj F : Total (ProcessEvent Obj F).
Proof. intros log. exact I. Qed.

Create HintDb total.
#[local] Hint Resolve Total_ret Total_fatal Total_checkf Total_if
  Total_ProcessEvent : total.
#[local] Hint Extern 2 (Total (bind _ _)) =>
  apply Total_bind; [|intro] : total.

Lemma Total_TestIntegerProperty P Pred (v : ValueOf P) :
  (forall T V, Total (Pred T V)) -> Total (TestIntegerProperty P Pred v).
Proof. intros H. destruct P; simpl; auto with total. Qed.

Lemma Total_TestArithmeticProperty P Pred (v : ValueOf P) :
  (forall T V, Total (on_int Pred T V)) ->
  (forall x, Total (on_float Pred x)) ->
  Total (TestArithmeticProperty P Pred v).
Proof.
  intros Hi Hf. unfold TestArithmeticProperty.
  apply Total_bind; [apply Total_TestIntegerProperty; exact Hi|].
  intros b. destruct b; [auto with total|].
  destruct P; simpl; auto with total.
Qed.

Lemma Total_CheckSign Obj rule cz cf c x n P (v : ValueOf P) :
  Total (CheckSign Obj rule (CompareWithInt cz cf c x) n P v).
Proof.
  unfold CheckSign. apply Total_bind; [|auto with total].
  apply Total_TestArithmeticProperty; intros; simpl; auto with total.
Qed.

Lemma Total_RangeIntPredicate b T V : Total (RangeIntPredicate b T V).
Proof. unfold RangeIntPredicate. destruct (is_signed T); auto with total. Qed.

Lemma Total_CheckRange cls prop tag P (v : ValueOf P) :
  Total (CheckRange cls prop tag P v).
Proof.
  unfold CheckRange.
  apply Total_bind; [unfold ParseRange; auto 10 with total|intros b].
  apply Total_bind; [|auto with total].
  repeat apply Total_if; auto with total.
  - apply Total_bind; [auto with total|intros _].
    apply Total_TestIntegerProperty. apply Total_RangeIntPredicate.
  - apply Total_bind; [auto with total|intros _].
    apply Total_TestArithmeticProperty; intros; simpl; auto with total.
Qed.

Lemma Total_CheckCustom Obj n tag : Total (CheckCustom Obj n tag).
Proof.
  unfold CheckCustom. destruct (FindFunctionByName Obj tag) as [F|];
    auto 10 with total.
Qed.

Lemma Total_CheckFunctions Obj fs : Total (CheckFunctions Obj fs).
Proof.
  induction fs as [|F fs IH]; simpl; [auto with total|].
  apply Total_bind; [|intros _; exact IH].
  unfold CheckFunction. auto 10 with total.
Qed.

(** The one branch that recurses: it settles when the recursive call on the
    object the field points to does. *)
Lemma Total_CheckContract h Obj R n P (v : ValueOf P) :
  (forall j, match P return ValueOf P -> ObjectPtr with
             | FObjectProperty _ | FClassProperty => fun v => v
             | _ => fun _ => None
             end v = Some j -> Total (R (Some j))) ->
  Total (CheckContract h Obj R n P v).
Proof.
  intros HR. destruct P; simpl; auto with total.
  all: apply Total_bind;
    [unfold ClassOf; destruct (Deref h v); [auto with total|intros l; exact I]
    |intros cls];
    apply Total_bind; [auto with total|intros _];
    apply Total_bind; [auto with total|intros _];
    destruct v as [j|]; simpl; [apply HR; reflexivity|auto with total].
Qed.

Lemma Total_CheckField h Obj R f :
  (forall j, ContractTarget f = Some j -> Total (R (Some j))) ->
  Total (CheckField h Obj R f).
Proof.
  intros HR. unfold CheckField, ContractTarget in *.
  destruct f as [n inv P v]; cbn [Invariant Property Value GetName] in *.
  destruct inv as [tag|]; [|auto with total].
  unfold CheckProperty.
  destruct (FString.Equals tag "MemSafe").
  { destruct P; simpl; auto with total. }
  destruct (FString.Equals tag "MemSafeContainer").
  { unfold CheckMemSafeContainer. auto with total. }
  destruct (FString.Equals tag "ID").
  { unfold CheckID. apply Total_bind; [|auto with total].
    apply Total_TestIntegerProperty. intros; unfold IsNotIndexNone.
    auto with total. }
  destruct (FString.Equals tag "Gte0"); [apply Total_CheckSign|].
  destruct (FString.Equals tag "Gt0"); [apply Total_CheckSign|].
  destruct (FString.Equals tag "Lte0"); [apply Total_CheckSign|].
  destruct (FString.Equals tag "Lt0"); [apply Total_CheckSign|].
  destruct (FString.StartsWith tag "Range"); [apply Total_CheckRange|].
  destruct (FString.Equals tag "name").
  { destruct P; simpl; auto with total. }
  destruct (FString.Equals tag "True").
  { destruct P; simpl; auto with total. }
  destruct (FString.Equals tag "False").
  { destruct P; simpl; auto with total. }
  destruct (FString.Equals tag "Contract*"); [|apply Total_CheckCustom].
  apply Total_CheckContract. exact HR.
Qed.

Lemma Total_CheckFields h Obj R fs :
  (forall f j, In f fs -> ContractTarget f = Some j -> Total (R (Some j))) ->
  Total (CheckFields h Obj R fs).
Proof.
  induction fs as [|f fs IH]; intros HR; cbn [CheckFields];
    [auto with total|].
  apply Total_bind.
  - apply Total_CheckField. intros j. apply HR. left. reflexivity.
  - intros _. apply IH. intros g j Hin. apply HR. right. exact Hin.
Qed.

Lemma RanksDecreaseFrom_spec rank objs :
  forall k i Obj f j,
    RanksDecreaseFrom rank k objs = true ->
    nth_error objs i = Some Obj ->
    In f (Fields Obj) ->
    ContractTarget f = Some j ->
    (rank j < rank (k + i)%nat)%nat.
Proof.
  induction objs as [|O objs IH]; intros k i Obj f j H Hn Hin Ht.
  - destruct i; discriminate Hn.
  - cbn [RanksDecreaseFrom] in H. apply andb_true_iff in H.
    destruct H as [H1 H2]. destruct i as [|i]; cbn [nth_error] in Hn.
    + injection Hn as ->. rewrite Nat.add_0_r.
      rewrite forallb_forall in H1. specialize (H1 f Hin).
      rewrite Ht in H1. apply Nat.ltb_lt. exact H1.
    + replace (k + S i)%nat with (S k + i)%nat by lia.
      exact (IH (S k) i Obj f j H2 Hn Hin Ht).
Qed.

Lemma Total_below_rank h rank :
  RanksDecrease rank h = true ->
  forall fuel i,
    (rank i < fuel)%nat -> Total (CheckClassInvariants fuel h (Some i)).
Proof.
  intros Hr. induction fuel as [|fuel IH]; intros i Hlt; [lia|].
  rewrite CheckClassInvariants_S.
  apply Total_bind; [auto with total|intros _].
  cbn [Deref]. destruct (nth_error h i) as [Obj|] eqn:Hobj;
    [|intros l; exact I].
  apply Total_bind; [|intros _; apply Total_CheckFunctions].
  apply Total_CheckFields. intros f j Hin Ht. apply IH.
  pose proof (RanksDecreaseFrom_spec rank h 0%nat i Obj f j Hr Hobj Hin Ht)
    as H.
  cbn [Nat.add] in H. lia.
Qed.

(** X7: a pass over a reference structure without a cycle terminates. When
    the objects can be ranked so that every Contract* reference leads to an
    object of smaller rank, a pass from any object ends otherwise than by
    the recursion running on: the depth of the recursion is at most the rank
    of the object, and the pass has one result, the same under every budget
    above that rank. *)
Theorem acyclic_contracts_settle :
  forall h rank i fuel fuel' log,
    RanksDecrease rank h = true ->
    (rank i < fuel)%nat ->
    (fuel <= fuel')%nat ->
    Settled (CheckClassInvariants fuel h (Some i) log)
    /\ CheckClassInvariants fuel' h (Some i) log
       = CheckClassInvariants fuel h (Some i) log.
Proof.
  intros h rank i fuel fuel' log Hr Hlt Hle.
  pose proof (Total_below_rank h rank Hr fuel i Hlt log) as Hs.
  split; [exact Hs|].
  apply CheckClassInvariants_more_fuel; assumption.
Qed.

(** X7 on an owner that requires its pet, which requires nothing of the
    owner: the pass succeeds, under a budget of two as under one of nine. *)
Lemma acyclic_contracts_settle_witness :
  RanksDecrease (fun i => (1 - i)%nat) [Owner; Stray] = true
  /\ CheckClassInvariants 2 [Owner; Stray] (Some 0%nat) [] = Done tt []
  /\ CheckClassInvariants 9 [Owner; Stray] (Some 0%nat) [] = Done tt [].
Proof.
  split; [reflexivity|]. split; [reflexivity|].
  refine (proj2 (acyclic_contracts_settle [Owner; Stray]
                   (fun i => (1 - i)%nat) 0%nat 2%nat 9%nat []
                   eq_refl _ _)); simpl; lia.
Defined.
(* ================================================================= *)
(** ** The integer rules on values in range *)

Lemma static_cast_InRange T z : InRange T z -> static_cast T z = z.
Proof.
  unfold InRange, MinValue, MaxValue, static_cast.
  destruct T; cbn [is_signed bits]; intros H.
  - change (2 ^ 8) with 256 in *. change (2 ^ (8 - 1)) with 128 in *.
    change (256 / 2) with 128. rewrite Z.mod_small by lia. lia.
  - change (2 ^ 16) with 65536 in *. change (2 ^ (16 - 1)) with 32768 in *.
    change (65536 / 2) with 32768. rewrite Z.mod_small by lia. lia.
  - change (2 ^ 32) with 4294967296 in *.
    change (2 ^ (32 - 1)) with 2147483648 in *.
    change (4294967296 / 2) with 2147483648.
    rewrite Z.mod_small by lia. lia.
  - change (2 ^ 64) with 18446744073709551616 in *.
    change (2 ^ (64 - 1)) with 9223372036854775808 in *.
    change (18446744073709551616 / 2) with 9223372036854775808.
    rewrite Z.mod_small by lia. lia.
  - change (2 ^ 8) with 256 in *. apply Z.mod_small. lia.
  - change (2 ^ 16) with 65536 in *. apply Z.mod_small. lia.
  - change (2 ^ 32) with 4294967296 in *. apply Z.mod_small. lia.
  - change (2 ^ 64) with 18446744073709551616 in *. apply Z.mod_small. lia.
Qed.

(** On an integer property, the integer test is the predicate at the
    property's type, on the value read in that type. *)
Lemma TestIntegerProperty_integer P T (v : ValueOf P) Pred :
  IntTypeOf P = Some T ->
  TestIntegerProperty P Pred v = Pred T (GetIntValue T (StoredInt P v)).
Proof.
  intros H. destruct P; try discriminate H; injection H as <-; reflexivity.
Qed.

Lemma TestArithmeticProperty_integer P T (v : ValueOf P) cz cf c x log :
  IntTypeOf P = Some T ->
  TestArithmeticProperty P (CompareWithInt cz cf c x) v log
  = Done (cz (GetIntValue T (StoredInt P v)) (int_constant_as T c)) log.
Proof.
  intros H. unfold TestArithmeticProperty, bind.
  rewrite (TestIntegerProperty_integer P T v _ H). simpl.
  unfold ret.
  destruct (cz (GetIntValue T (StoredInt P v)) (int_constant_as T c));
    [reflexivity|].
  destruct P; try discriminate H; reflexivity.
Qed.

Lemma zero_as T : int_constant_as T 0 = 0.
Proof. destruct T; reflexivity. Qed.

(** X8: on an integer property whose stored value is in the range of its
    type, each sign rule is the plain comparison of that value with zero;
    on the unsigned types Gte0 therefore always passes and Lt0 never
    does. *)
Theorem sign_rules_exact_on_integers :
  forall h Obj R n P T (v : ValueOf P) log,
    IntTypeOf P = Some T ->
    InRange T (StoredInt P v) ->
    let pass (ok : bool) (rule : string) :=
      if ok then Done tt log
      else Stop (Fatal (Violation rule (GetClass Obj) n)) log in
    CheckProperty h Obj R n "Gte0" P v log = pass (0 <=? StoredInt P v) "Gte0"
    /\ CheckProperty h Obj R n "Gt0" P v log = pass (0 <? StoredInt P v) "Gt0"
    /\ CheckProperty h Obj R n "Lte0" P v log
       = pass (StoredInt P v <=? 0) "Lte0"
    /\ CheckProperty h Obj R n "Lt0" P v log = pass (StoredInt P v <? 0) "Lt0"
    /\ (is_signed T = false ->
        CheckProperty h Obj R n "Gte0" P v log = Done tt log
        /\ CheckProperty h Obj R n "Lt0" P v log
           = Stop (Fatal (Violation "Lt0" (GetClass Obj) n)) log).
Proof.
  intros h Obj R n P T v log HT Hr pass.
  assert (E : GetIntValue T (StoredInt P v) = StoredInt P v)
    by (apply static_cast_InRange; exact Hr).
  assert (G : CheckProperty h Obj R n "Gte0" P v log
              = pass (0 <=? StoredInt P v) "Gte0").
  { change (CheckProperty h Obj R n "Gte0" P v log)
      with (CheckSign Obj "Gte0" Gte0 n P v log).
    unfold CheckSign, bind, Gte0.
    rewrite (TestArithmeticProperty_integer P T v _ _ _ _ log HT).
    rewrite E, zero_as, Z.geb_leb. unfold pass, checkf.
    destruct (0 <=? StoredInt P v); reflexivity. }
  assert (L : CheckProperty h Obj R n "Lt0" P v log
              = pass (StoredInt P v <? 0) "Lt0").
  { change (CheckProperty h Obj R n "Lt0" P v log)
      with (CheckSign Obj "Lt0" Lt0 n P v log).
    unfold CheckSign, bind, Lt0.
    rewrite (TestArithmeticProperty_integer P T v _ _ _ _ log HT).
    rewrite E, zero_as. unfold pass, checkf.
    destruct (StoredInt P v <? 0); reflexivity. }
  split; [exact G|]. split; [|split; [|split; [exact L|]]].
  - change (CheckProperty h Obj R n "Gt0" P v log)
      with (CheckSign Obj "Gt0" Gt0 n P v log).
    unfold CheckSign, bind, Gt0.
    rewrite (TestArithmeticProperty_integer P T v _ _ _ _ log HT).
    rewrite E, zero_as, Z.gtb_ltb. unfold pass, checkf.
    destruct (0 <? StoredInt P v); reflexivity.
  - change (CheckProperty h Obj R n "Lte0" P v log)
      with (CheckSign Obj "Lte0" Lte0 n P v log).
    unfold CheckSign, bind, Lte0.
    rewrite (TestArithmeticProperty_integer P T v _ _ _ _ log HT).
    rewrite E, zero_as. unfold pass, checkf.
    destruct (StoredInt P v <=? 0); reflexivity.
  - intros Hu. rewrite G, L. unfold pass.
    assert (0 <= StoredInt P v).
    { unfold InRange, MinValue in Hr. rewrite Hu in Hr. lia. }
    replace (0 <=? StoredInt P v) with true by (symmetry; apply Z.leb_le; lia).
    replace (StoredInt P v <? 0) with false by (symmetry; apply Z.ltb_ge; lia).
    split; reflexivity.
Qed.

(** X8 on a byte property that holds 200. *)
Lemma sign_rules_exact_on_integers_witness :
  CheckProperty [] (Single "UThing" "Lt0" FByteProperty 200) (fun _ => ret tt)
    "X" "Lt0" FByteProperty 200 []
  = Stop (Fatal (Violation "Lt0" "UThing" "X")) [].
Proof.
  assert (H : InRange UInt8 200) by (split; vm_compute; discriminate).
  destruct (sign_rules_exact_on_integers []
              (Single "UThing" "Lt0" FByteProperty 200) (fun _ => ret tt)
              "X" FByteProperty UInt8 200 [] eq_refl H)
    as (_ & _ & _ & _ & Hu).
  exact (proj2 (Hu eq_refl)).
Defined.

(** X9: on an integer property whose stored value is in range, ID is
    violated exactly by the value that [INDEX_NONE] becomes in the type of
    the property: -1 for the signed types, the largest value for the 32-bit
    and 64-bit unsigned types; on a byte or an unsigned 16-bit property
    the rule cannot be violated. *)
Theorem id_rule_on_integers :
  forall h Obj R n P T (v : ValueOf P) log,
    IntTypeOf P = Some T ->
    InRange T (StoredInt P v) ->
    CheckProperty h Obj R n "ID" P v log
    = (if StoredInt P v =?
            match T with
            | UInt32 => 4294967295
            | UInt64 => 18446744073709551615
            | _ => -1
            end
       then Stop (Fatal (Violation "ID" (GetClass Obj) n)) log
       else Done tt log)
    /\ (T = UInt8 \/ T = UInt16 ->
        CheckProperty h Obj R n "ID" P v log = Done tt log).
Proof.
  intros h Obj R n P T v log HT Hr.
  assert (E : GetIntValue T (StoredInt P v) = StoredInt P v)
    by (apply static_cast_InRange; exact Hr).
  assert (G : CheckProperty h Obj R n "ID" P v log
              = if StoredInt P v =? int_constant_as T INDEX_NONE
                then Stop (Fatal (Violation "ID" (GetClass Obj) n)) log
                else Done tt log).
  { change (CheckProperty h Obj R n "ID" P v log)
      with (CheckID Obj n P v log).
    unfold CheckID, bind.
    rewrite (TestIntegerProperty_integer P T v _ HT).
    unfold IsNotIndexNone, ret, checkf. rewrite E.
    destruct (StoredInt P v =? int_constant_as T INDEX_NONE); reflexivity. }
  split.
  - rewrite G. destruct T; reflexivity.
  - intros HT8. rewrite G.
    replace (StoredInt P v =? int_constant_as T INDEX_NONE) with false;
      [reflexivity|].
    symmetry. apply Z.eqb_neq. unfold InRange, MinValue in Hr.
    destruct HT8 as [-> | ->]; cbn [is_signed] in Hr;
      change (int_constant_as _ INDEX_NONE) with (-1); lia.
Qed.

(** X9 on a byte property that holds 255. *)
Lemma id_rule_on_integers_witness :
  CheckProperty [] (Single "UThing" "ID" FByteProperty 255) (fun _ => ret tt)
    "X" "ID" FByteProperty 255 [] = Done tt [].
Proof.
  assert (H : InRange UInt8 255) by (split; vm_compute; discriminate).
  exact (proj2 (id_rule_on_integers []
                  (Single "UThing" "ID" FByteProperty 255) (fun _ => ret tt)
                  "X" FByteProperty UInt8 255 [] eq_refl H)
           (or_introl eq_refl)).
Defined.

(* ================================================================= *)
(** ** The Range rule beyond the claims *)

(** The integer path of the Range branch, once the tag has been parsed. *)
Lemma CheckRange_integer cls n tag P T (v : ValueOf P) b log log' :
  IntTypeOf P = Some T ->
  ParseRange cls n tag log = Done b log' ->
  bBoundsHaveFloatMarker b = false ->
  CheckRange cls n tag P v log =
  match RangeIntPredicate b T (GetIntValue T (StoredInt P v)) log' with
  | Done ok l => if ok then Done tt l
                 else Stop (Fatal (RangeViolation cls n)) l
  | Stop e l => Stop e l
  end.
Proof.
  intros HT Hp Hm. unfold CheckRange, bind. rewrite Hp.
  unfold IsIntegerProperty. rewrite HT, Hm. unfold ret at 1. cbv beta iota.
  rewrite (TestIntegerProperty_integer P T v _ HT).
  destruct (RangeIntPredicate b T (GetIntValue T (StoredInt P v)) log')
    as [ok l|e l]; [|reflexivity].
  unfold checkf. destruct ok; reflexivity.
Qed.

(** X10: on an integer property of any of the eight types, when both
    bounds of the tag are representable in the type of the property and are
    in order, the Range rule is the plain interval test on the stored
    value, each end closed or open as its bracket says. *)
Theorem integer_range_is_interval_test :
  forall cls n tag P T (v : ValueOf P) b log log',
    IntTypeOf P = Some T ->
    ParseRange cls n tag log = Done b log' ->
    bBoundsHaveFloatMarker b = false ->
    InRange T (ParseBound T (LowerTrimmed b)) ->
    InRange T (ParseBound T (UpperTrimmed b)) ->
    ParseBound T (LowerTrimmed b) <= ParseBound T (UpperTrimmed b) ->
    InRange T (StoredInt P v) ->
    CheckRange cls n tag P v log =
    if InInterval (ParseBound T (LowerTrimmed b)) (ParseBound T (UpperTrimmed b))
         (bLowerInclusive b) (bUpperInclusive b) (StoredInt P v)
    then Done tt log'
    else Stop (Fatal (RangeViolation cls n)) log'.
Proof.
  intros cls n tag P T v b log log' HT Hp Hm Hlo Hhi Hord Hv.
  rewrite (CheckRange_integer cls n tag P T v b log log' HT Hp Hm).
  unfold GetIntValue. rewrite (static_cast_InRange T _ Hv).
  unfold RangeIntPredicate, InInterval.
  unfold ParseBound in *. destruct (is_signed T) eqn:Es.
  - unfold bind, checkf.
    replace (FCString.Atoi64 (LowerTrimmed b)
             <=? FCString.Atoi64 (UpperTrimmed b)) with true
      by (symmetry; apply Z.leb_le; exact Hord).
    unfold ret. cbv beta iota zeta.
    rewrite (static_cast_InRange T _ Hlo), (static_cast_InRange T _ Hhi).
    rewrite Z.geb_leb, Z.gtb_ltb. reflexivity.
  - unfold ret. cbv beta iota zeta.
    rewrite (static_cast_InRange T _ Hlo), (static_cast_InRange T _ Hhi).
    rewrite Z.geb_leb, Z.gtb_ltb. reflexivity.
Qed.

(** X10 on a signed 8-bit property tagged [Range(-5,5]] that holds -5. *)
Lemma integer_range_is_interval_test_witness :
  CheckRange "UThing" "X" "Range(-5,5]" FInt8Property (-5) []
  = Stop (Fatal (RangeViolation "UThing" "X")) [].
Proof.
  assert (H1 : InRange Int8 (-5)) by (split; vm_compute; discriminate).
  assert (H2 : InRange Int8 5) by (split; vm_compute; discriminate).
  assert (H3 : -5 <= 5) by (vm_compute; discriminate).
  exact (integer_range_is_interval_test "UThing" "X" "Range(-5,5]"
           FInt8Property Int8 (-5)
           {| bLowerInclusive := false; bUpperInclusive := true;
              LowerTrimmed := "-5"; UpperTrimmed := "5" |} [] []
           eq_refl eq_refl eq_refl H1 H2 H3 H1).
Defined.

(** X11: the shape of the property is judged after the tag has been parsed
    and before the value is looked at. A Range tag that parses is a
    configuration error on every property that is neither an integer nor a
    float, whatever its bounds, and on an integer property as soon as one
    of its bounds shows a decimal point or an exponent mark; a tag that
    does not parse fails in the same way on every property. *)
Theorem range_on_wrong_shape :
  (forall cls n tag b log log' Q (w : ValueOf Q),
      ParseRange cls n tag log = Done b log' ->
      IsIntegerProperty Q = false ->
      IsFloatProperty Q = false ->
      CheckRange cls n tag Q w log
      = Stop (Fatal (RangeNonArithmetic cls n)) log'
      /\ tier (RangeNonArithmetic cls n) = ConfigurationError)
  /\ (forall cls n tag b log log' P (v : ValueOf P),
         ParseRange cls n tag log = Done b log' ->
         IsIntegerProperty P = true ->
         bBoundsHaveFloatMarker b = true ->
         CheckRange cls n tag P v log
         = Stop (Fatal (RangeIntegerBounds cls n)) log'
         /\ tier (RangeIntegerBounds cls n) = ConfigurationError)
  /\ (forall cls n tag e log log' P (v : ValueOf P),
         ParseRange cls n tag log = Stop e log' ->
         CheckRange cls n tag P v log = Stop e log').
Proof.
  split; [|split].
  - intros cls n tag b log log' Q w Hp HQ HQ'. split; [|reflexivity].
    unfold CheckRange, bind. rewrite Hp, HQ, HQ'. reflexivity.
  - intros cls n tag b log log' P v Hp HP Hm. split; [|reflexivity].
    unfold CheckRange, bind. rewrite Hp, HP, Hm. reflexivity.
  - intros cls n tag e log log' P v Hp.
    unfold CheckRange, bind. rewrite Hp. reflexivity.
Qed.

(** X11 on a bool property tagged [Range[0,1]], on an integer property
    tagged [Range[0.5,2]], and on the tag [Range[0]]. *)
Lemma range_on_wrong_shape_witness :
  CheckRange "UThing" "X" "Range[0,1]" FBoolProperty true []
  = Stop (Fatal (RangeNonArithmetic "UThing" "X")) []
  /\ CheckRange "UThing" "X" "Range[0.5,2]" FIntProperty 1 []
     = Stop (Fatal (RangeIntegerBounds "UThing" "X")) []
  /\ CheckRange "UThing" "X" "Range[0]" FIntProperty 0 []
     = Stop (Fatal (RangeBoundCount "UThing" "X")) [].
Proof.
  split; [|split].
  - exact (proj1 (proj1 range_on_wrong_shape "UThing" "X" "Range[0,1]"
                    {| bLowerInclusive := true; bUpperInclusive := true;
                       LowerTrimmed := "0"; UpperTrimmed := "1" |} [] []
                    FBoolProperty true eq_refl eq_refl eq_refl)).
  - exact (proj1 (proj1 (proj2 range_on_wrong_shape) "UThing" "X"
                    "Range[0.5,2]"
                    {| bLowerInclusive := true; bUpperInclusive := true;
                       LowerTrimmed := "0.5"; UpperTrimmed := "2" |} [] []
                    FIntProperty 1 eq_refl eq_refl eq_refl)).
  - exact (proj2 (proj2 range_on_wrong_shape) "UThing" "X" "Range[0]"
             (Fatal (RangeBoundCount "UThing" "X")) [] []
             FIntProperty 0 eq_refl).
Defined.

Lemma substring_skip (a b : string) :
  String.substring (String.length a) (String.length b) (a ++ b) = b.
Proof.
  induction a as [|c a IH]; simpl.
  - induction b as [|d b IHb]; simpl; [reflexivity|].
    f_equal. exact IHb.
  - exact IH.
Qed.

Lemma length_append (a b : string) :
  String.length (a ++ b) = (String.length a + String.length b)%nat.
Proof. induction a as [|c a IH]; simpl; [reflexivity|]. rewrite IH. reflexivity. Qed.

Lemma Mid_skip (kw rest : string) :
  FString.Mid (kw ++ rest) (String.length kw) = rest.
Proof.
  unfold FString.Mid. rewrite length_append.
  replace (String.length kw + String.length rest - String.length kw)%nat
    with (String.length rest) by lia.
  apply substring_skip.
Qed.

Lemma TrimStart_whitespace (ws rest : string) :
  AllWhitespace ws = true ->
  FString.TrimStart (ws ++ rest) = FString.TrimStart rest.
Proof.
  induction ws as [|c ws IH]; simpl; intros H; [reflexivity|].
  apply andb_true_iff in H. destruct H as [Hc Hws].
  rewrite Hc. apply IH. exact Hws.
Qed.

(** X12: white space between the keyword and the opening bracket is not
    part of the range: a tag with white space after its first five
    characters parses exactly as the tag without it. *)
Theorem range_space_after_keyword :
  forall cls n kw ws rest log,
    String.length kw = 5%nat ->
    AllWhitespace ws = true ->
    ParseRange cls n (kw ++ ws ++ rest) log
    = ParseRange cls n (kw ++ rest) log.
Proof.
  intros cls n kw ws rest log Hkw Hws. unfold ParseRange.
  rewrite <- Hkw, !Mid_skip, (TrimStart_whitespace ws rest Hws).
  reflexivity.
Qed.

(** X12 on the tag "Range (1, 2)" of the source's comment. *)
Lemma range_space_after_keyword_witness :
  ParseRange "UThing" "X" "Range  (1, 2)" []
  = Done {| bLowerInclusive := false; bUpperInclusive := false;
            LowerTrimmed := "1"; UpperTrimmed := "2" |} [].
Proof.
  exact (range_space_after_keyword "UThing" "X" "Range" "  " "(1, 2)" []
           eq_refl eq_refl).
Defined.

(* ================================================================= *)
(** ** The sanitizer of the bounds *)

Lemma Sanitize_cons C r :
  SanitizeNumberString (String C r) =
  if (negb (FChar.IsWhitespace C)
      && negb (Ascii.eqb C "," || Ascii.eqb C "_")
      && IsNumericChar C)%bool
  then String C (SanitizeNumberString r)
  else SanitizeNumberString r.
Proof.
  cbn [SanitizeNumberString]. unfold IsNumericChar.
  destruct (FChar.IsWhitespace C); [reflexivity|].
  destruct (Ascii.eqb C "," || Ascii.eqb C "_")%bool; reflexivity.
Qed.

(** The third test of the sanitizer, on the characters themselves. *)
Lemma IsNumericChar_chars c : IsNumericChar c = IsOneOf NumericChars c.
Proof.
  destruct c as [[] [] [] [] [] [] [] []]; reflexivity.
Qed.

(** White space and the two separators are not written in a number, so the
    first two tests of the sanitizer take nothing from the third. *)
Lemma IsNumericChar_kept c :
  IsNumericChar c = true ->
  FChar.IsWhitespace c = false
  /\ (Ascii.eqb c "," || Ascii.eqb c "_")%bool = false.
Proof.
  destruct c as [[] [] [] [] [] [] [] []]; intros H;
    try discriminate H; split; reflexivity.
Qed.

(** X13: the result of the sanitizer is the text made of the characters of
    its argument that are among [0123456789.+-eE], all of them and in
    their order; so the sanitizer works piece by piece and has nothing left
    to remove from its own result. *)
Theorem sanitizer_keeps_numeric_characters :
  forall s t,
    list_ascii_of_string (SanitizeNumberString s)
    = filter (IsOneOf NumericChars) (list_ascii_of_string s)
    /\ SanitizeNumberString (s ++ t)
       = SanitizeNumberString s ++ SanitizeNumberString t
    /\ SanitizeNumberString (SanitizeNumberString s) = SanitizeNumberString s.
Proof.
  intros s t. split; [|split].
  - induction s as [|C r IH]; [reflexivity|].
    rewrite Sanitize_cons. cbn [list_ascii_of_string filter].
    rewrite <- IsNumericChar_chars.
    destruct (IsNumericChar C) eqn:E.
    + destruct (IsNumericChar_kept C E) as [-> ->].
      cbn [negb andb list_ascii_of_string]. rewrite IH. reflexivity.
    + rewrite andb_false_r. exact IH.
  - induction s as [|C r IH]; [reflexivity|].
    cbn [String.append]. rewrite !Sanitize_cons, IH.
    destruct (negb (FChar.IsWhitespace C)
              && negb (Ascii.eqb C "," || Ascii.eqb C "_")
              && IsNumericChar C)%bool; reflexivity.
  - induction s as [|C r IH]; [reflexivity|].
    rewrite Sanitize_cons.
    destruct (negb (FChar.IsWhitespace C)
              && negb (Ascii.eqb C "," || Ascii.eqb C "_")
              && IsNumericChar C)%bool eqn:E; [|exact IH].
    rewrite Sanitize_cons, E, IH. reflexivity.
Qed.

(* ================================================================= *)
(** ** Custom predicates *)

(** X14: a const function with no parameter besides its return value that
    the tag of a property names, tagged as an invariant itself or not, is
    called once and then judged: a return type other than bool is reported
    after the call, and otherwise the rule passes exactly when the function
    returned true. In the loop over the functions tagged as invariants,
    named by a tag or not, the return type is checked before the call, so
    that a function of another return type is not called. *)
Theorem custom_predicate_call_and_verdict :
  (forall h Obj R n tag P (v : ValueOf P) F log,
      IsRuleKeyword tag = false ->
      FindFunctionByName Obj tag = Some F ->
      FUNC_Const F = true ->
      NumParms F = 1%nat ->
      CheckProperty h Obj R n tag P v log
      = (if IsBoolProperty (GetReturnProperty F)
         then if Returns F then Done tt ((Obj, F) :: log)
              else Stop (Fatal (CustomCheckFailed (GetClass Obj) n tag))
                     ((Obj, F) :: log)
         else Stop (Fatal (FunctionReturn tag)) ((Obj, F) :: log)))
  /\ (forall Obj F log,
         HasInvariant F = true ->
         FUNC_Const F = true ->
         NumParms F = 1%nat ->
         CheckFunction Obj F log
         = (if IsBoolProperty (GetReturnProperty F)
            then if Returns F then Done tt ((Obj, F) :: log)
                 else Stop (Fatal (MethodFailed (FuncName F) (GetClass Obj)))
                        ((Obj, F) :: log)
            else Stop (Fatal (MethodReturn (FuncName F) (GetClass Obj))) log)).
Proof.
  split.
  - intros h Obj R n tag P v F log Hkw Hfind Hconst Hparms.
    rewrite CheckProperty_custom by exact Hkw.
    unfold CheckCustom. rewrite Hfind.
    unfold bind, checkf, ProcessEvent. rewrite Hconst, Hparms. simpl.
    destruct (IsBoolProperty (GetReturnProperty F)); simpl; [|reflexivity].
    destruct (Returns F); reflexivity.
  - intros Obj F log Hmeta Hconst Hparms.
    unfold CheckFunction. rewrite Hmeta.
    unfold bind, checkf, ProcessEvent. rewrite Hconst, Hparms. simpl.
    destruct (IsBoolProperty (GetReturnProperty F)); simpl; [|reflexivity].
    destruct (Returns F); reflexivity.
Qed.

(** X14 on [int32 IsReady() const] without the metadata, named by the tag
    of a property, and on [int32 Audit() const] tagged as an invariant,
    which no tag names. *)
Lemma custom_predicate_call_and_verdict_witness :
  CheckProperty [WithFunction IsReady_int] (WithFunction IsReady_int)
    (fun _ => ret tt) "Count" "IsReady" FIntProperty 3 []
  = Stop (Fatal (FunctionReturn "IsReady"))
      [(WithFunction IsReady_int, IsReady_int)]
  /\ CheckFunction (WithFunction Audit_int) Audit_int []
     = Stop (Fatal (MethodReturn "Audit" "UGadget")) [].
Proof.
  split.
  - exact (proj1 custom_predicate_call_and_verdict [WithFunction IsReady_int]
             (WithFunction IsReady_int) (fun _ => ret tt) "Count" "IsReady"
             FIntProperty 3 IsReady_int [] eq_refl eq_refl eq_refl eq_refl).
  - exact (proj2 custom_predicate_call_and_verdict
             (WithFunction Audit_int) Audit_int [] eq_refl eq_refl eq_refl).
Defined.

(* ================================================================= *)
(** ** The checklist registry *)

Section ChecklistFacts.

Import Checklist.

Lemma SameName_refl a : SameName a a = true.
Proof. apply String.eqb_refl. Qed.

Lemma SameName_trans_eq k n m :
  SameName k n = true -> SameName k m = SameName n m.
Proof.
  unfold SameName, FString.Equals. intros H.
  apply String.eqb_eq in H. rewrite H. reflexivity.
Qed.

Lemma Find_Modify_same reg n f :
  Find (Modify reg n f) n = option_map f (Find reg n).
Proof.
  induction reg as [|[k st] reg IH]; simpl; [reflexivity|].
  destruct (SameName k n) eqn:E; simpl; rewrite E; [reflexivity|exact IH].
Qed.

Lemma Find_Modify_other reg n m f :
  SameName n m = false -> Find (Modify reg n f) m = Find reg m.
Proof.
  intros H. induction reg as [|[k st] reg IH]; simpl; [reflexivity|].
  destruct (SameName k n) eqn:E; simpl.
  - rewrite (SameName_trans_eq k n m E), H. reflexivity.
  - rewrite IH. reflexivity.
Qed.

Lemma Find_Add_same reg n st : Find (Add reg n st) n = Some st.
Proof.
  induction reg as [|[k old] reg IH]; simpl.
  - rewrite SameName_refl. reflexivity.
  - destruct (SameName k n) eqn:E; simpl; rewrite E; [reflexivity|exact IH].
Qed.

Lemma Find_Add_other reg n m st :
  SameName n m = false -> Find (Add reg n st) m = Find reg m.
Proof.
  intros H. induction reg as [|[k old] reg IH]; simpl.
  - rewrite H. reflexivity.
  - destruct (SameName k n) eqn:E; simpl.
    + rewrite (SameName_trans_eq k n m E), H. reflexivity.
    + rewrite IH. reflexivity.
Qed.

Lemma Add32_succ x : -1 <= x < 2147483647 -> Add32 x 1 = x + 1.
Proof.
  intros H. unfold Add32. apply static_cast_InRange.
  unfold InRange, MinValue, MaxValue. cbn [is_signed bits].
  change (2 ^ (32 - 1)) with 2147483648. lia.
Qed.

Lemma Num_app a b : Num (a ++ b)%list = Num a + Num b.
Proof. unfold Num. rewrite length_app. lia. Qed.

Lemma Num_nonneg a : 0 <= Num a.
Proof. unfold Num. lia. Qed.

Lemma nth_Num (done : list FName) s rest :
  nth (Z.to_nat (Num done)) (done ++ s :: rest)%list "" = s.
Proof.
  unfold Num. rewrite Nat2Z.id, app_nth2 by lia.
  rewrite Nat.sub_diag. reflexivity.
Qed.

(** One scope, around a body that leaves the registry alone, on the step
    that is next. *)
Lemma Scope_next reg name st done s rest :
  Find reg name = Some st ->
  Steps st = (done ++ s :: rest)%list ->
  LastFinishedStepIndex st = Num done - 1 ->
  Num (Steps st) <= 2147483647 ->
  exists reg',
    Scope name s (fun r => inr r) reg = inr reg'
    /\ Find reg' name
       = Some {| Steps := Steps st;
                 LastFinishedStepIndex := Num done;
                 bIsDone := (Num rest =? 0) || bIsDone st |}
    /\ forall m, SameName name m = false -> Find reg' m = Find reg m.
Proof.
  intros Hfind Hsteps Hlast Hnum.
  assert (Hn : Num (Steps st) = Num done + 1 + Num rest).
  { rewrite Hsteps, Num_app. unfold Num at 2. cbn [List.length].
    fold (Num rest). unfold Num. lia. }
  pose proof (Num_nonneg done) as Hd. pose proof (Num_nonneg rest) as Hr.
  assert (Hexp : Add32 (LastFinishedStepIndex st) 1 = Num done).
  { rewrite Add32_succ by lia. lia. }
  assert (Hin : ((Num done <? 0) || (Num done >=? Num (Steps st))) = false).
  { apply orb_false_iff. split; [apply Z.ltb_ge; lia|].
    rewrite Z.geb_leb. apply Z.leb_gt. lia. }
  assert (Hnth : nth (Z.to_nat (Num done)) (Steps st) "" = s)
    by (rewrite Hsteps; apply nth_Num).
  unfold Scope, CanBeginStep. rewrite Hfind, Hexp, Hin, Hnth, SameName_refl.
  unfold CheckStep. rewrite Hfind, Hexp, Hin, Hnth, SameName_refl.
  cbn [negb].
  destruct (Num done =? Num (Steps st) - 1) eqn:Elast.
  - apply Z.eqb_eq in Elast.
    unfold SetChecklistDone. rewrite Find_Modify_same, Hfind. cbn [option_map].
    eexists. split; [reflexivity|]. split.
    + rewrite !Find_Modify_same, Hfind.
      cbn [option_map Steps LastFinishedStepIndex bIsDone]. rewrite Hexp.
      replace (Num rest =? 0) with true by (symmetry; apply Z.eqb_eq; lia).
      reflexivity.
    + intros m Hm. rewrite !Find_Modify_other by exact Hm. reflexivity.
  - apply Z.eqb_neq in Elast.
    eexists. split; [reflexivity|]. split.
    + rewrite Find_Modify_same, Hfind.
      cbn [option_map Steps LastFinishedStepIndex bIsDone]. rewrite Hexp.
      replace (Num rest =? 0) with false by (symmetry; apply Z.eqb_neq; lia).
      reflexivity.
    + intros m Hm. rewrite Find_Modify_other by exact Hm. reflexivity.
Qed.

Lemma RunSteps_in_order name todo :
  forall reg st done rest,
    Find reg name = Some st ->
    Steps st = (done ++ todo ++ rest)%list ->
    LastFinishedStepIndex st = Num done - 1 ->
    bIsDone st = false ->
    Num (Steps st) <= 2147483647 ->
    exists reg',
      RunSteps name todo reg = inr reg'
      /\ Find reg' name
         = Some {| Steps := Steps st;
                   LastFinishedStepIndex := Num done + Num todo - 1;
                   bIsDone := negb (Num todo =? 0) && (Num rest =? 0) |}
      /\ forall m, SameName name m = false -> Find reg' m = Find reg m.
Proof.
  induction todo as [|s todo IH]; intros reg st done rest Hf Hs Hl Hd Hn.
  - exists reg. split; [reflexivity|]. split; [|reflexivity].
    rewrite Hf. destruct st as [ss l d]; cbn in *. subst l d.
    change (Num []) with 0. rewrite Z.add_0_r. reflexivity.
  - destruct (Scope_next reg name st done s (todo ++ rest)%list Hf Hs Hl Hn)
      as (reg1 & Hscope & Hfind1 & Hother1).
    cbn [RunSteps]. rewrite Hscope. rewrite Hd, orb_false_r in Hfind1.
    assert (Hcons : Num (s :: todo) = 1 + Num todo)
      by (unfold Num; cbn [List.length]; lia).
    pose proof (Num_nonneg todo) as Ht. pose proof (Num_nonneg rest) as Hr.
    destruct todo as [|s2 todo'].
    + exists reg1. split; [reflexivity|]. split; [|exact Hother1].
      rewrite Hfind1. cbn [app]. rewrite Hcons. change (Num []) with 0.
      replace (1 + 0 =? 0) with false by reflexivity. cbn [negb andb].
      replace (Num done + (1 + 0) - 1) with (Num done) by lia. reflexivity.
    + assert (Hrest : (Num ((s2 :: todo') ++ rest)%list =? 0) = false).
      { apply Z.eqb_neq. rewrite Num_app. unfold Num at 1.
        cbn [List.length]. lia. }
      rewrite Hrest in Hfind1.
      destruct (IH reg1 _ (done ++ [s])%list rest Hfind1) as
        (reg2 & Hrun & Hfind2 & Hother2).
      * cbn [Steps]. rewrite Hs, <- app_assoc. reflexivity.
      * cbn [LastFinishedStepIndex]. rewrite Num_app.
        change (Num [s]) with 1. lia.
      * reflexivity.
      * exact Hn.
      * exists reg2. split; [exact Hrun|]. split.
        -- rewrite Hfind2. cbn [Steps]. rewrite Num_app, Hcons.
           change (Num [s]) with 1.
           replace (1 + Num (s2 :: todo') =? 0) with false
             by (symmetry; apply Z.eqb_neq; lia).
           replace (Num (s2 :: todo') =? 0) with false
             by (symmetry; apply Z.eqb_neq; unfold Num; cbn [List.length]; lia).
           f_equal. f_equal. lia.
        -- intros m Hm. rewrite Hother2, Hother1 by exact Hm. reflexivity.
Qed.

(** X15: a checklist that is registered under a new name starts with no
    step finished, whatever else the registry holds, and the other
    checklists are as they were. Registering a name that the registry
    holds already, with any steps and in whatever state its checklist is,
    gives the registry back as it was: the progress made is not lost. *)
Theorem register_adds_once :
  (forall (e : bool) (reg : Registry) (name : FName) (steps : list FName),
      Find reg name = None ->
      (if e then FirstDuplicate [] steps else None) = None ->
      exists reg',
        Register e name steps reg = inr reg'
        /\ Find reg' name
           = Some {| Steps := steps; LastFinishedStepIndex := INDEX_NONE;
                     bIsDone := false |}
        /\ (forall m, SameName name m = false -> Find reg' m = Find reg m))
  /\ (forall (e : bool) (reg : Registry) (name : FName)
             (steps : list FName) (st : FLifeChecklistState),
         Find reg name = Some st ->
         Register e name steps reg = inr reg).
Proof.
  split.
  - intros e reg name steps Hnew Hdup.
    unfold Register, Contains. rewrite Hnew. cbn [IsSet Steps].
    rewrite Hdup. eexists. split; [reflexivity|].
    split; [apply Find_Add_same|].
    intros m Hm. apply Find_Add_other. exact Hm.
  - intros e reg name steps st Hfound.
    unfold Register, Contains. rewrite Hfound. reflexivity.
Qed.

(** X15 on the example checklist of the header, in an editor build:
    registered in the empty registry, and registered again, under its name
    in other letter case and with other steps, once its first step is
    finished. *)
Lemma register_adds_once_witness :
  (exists reg',
      Register true "LoadWorld" LoadWorldSteps [] = inr reg'
      /\ Find reg' "LoadWorld"
         = Some {| Steps := LoadWorldSteps; LastFinishedStepIndex := -1;
                   bIsDone := false |})
  /\ Register true "loadworld" ["a"; "a"] LoadWorldStarted
     = inr LoadWorldStarted.
Proof.
  split.
  - destruct (proj1 register_adds_once true [] "LoadWorld" LoadWorldSteps
                eq_refl eq_refl) as (reg' & H1 & H2 & _).
    exists reg'. split; [exact H1|exact H2].
  - exact (proj2 register_adds_once true LoadWorldStarted "loadworld"
             ["a"; "a"]
             {| Steps := LoadWorldSteps; LastFinishedStepIndex := 0;
                bIsDone := false |} eq_refl).
Defined.

(** X16: from a freshly registered checklist with at least one step, the
    scopes of its steps, taken in the order of the checklist, all succeed
    and leave the checklist done, with its last step as the last finished
    one; the other checklists are not touched. *)
Theorem steps_in_order_complete_the_checklist :
  forall reg name s steps,
    Find reg name
    = Some {| Steps := s :: steps; LastFinishedStepIndex := INDEX_NONE;
              bIsDone := false |} ->
    Num (s :: steps) <= 2147483647 ->
    exists reg',
      RunSteps name (s :: steps) reg = inr reg'
      /\ Find reg' name
         = Some {| Steps := s :: steps;
                   LastFinishedStepIndex := Num (s :: steps) - 1;
                   bIsDone := true |}
      /\ IsChecklistDone reg' name = inr true
      /\ GetLastCompletedStepName reg' name = inr "completed"
      /\ (forall t, CanBeginStep reg' name t = inr false)
      /\ (forall m, SameName name m = false -> Find reg' m = Find reg m).
Proof.
  intros reg name s steps Hf Hn.
  destruct (RunSteps_in_order name (s :: steps) reg _ [] [] Hf)
    as (reg' & Hrun & Hfind & Hother).
  - cbn [Steps app]. rewrite app_nil_r. reflexivity.
  - reflexivity.
  - reflexivity.
  - exact Hn.
  - cbn [Steps] in Hfind. change (Num []) with 0 in Hfind.
    assert (Hpos : (Num (s :: steps) =? 0) = false).
    { apply Z.eqb_neq. unfold Num. cbn [List.length]. lia. }
    rewrite Hpos in Hfind. cbn [negb andb Z.eqb] in Hfind.
    rewrite Z.add_0_l in Hfind.
    exists reg'. split; [exact Hrun|]. split; [exact Hfind|].
    split; [|split; [|split; [|exact Hother]]].
    + unfold IsChecklistDone. rewrite Hfind. reflexivity.
    + unfold GetLastCompletedStepName. rewrite Hfind. reflexivity.
    + intros t. unfold CanBeginStep. rewrite Hfind.
      cbn [Steps LastFinishedStepIndex].
      rewrite Add32_succ by (unfold Num in *; cbn [List.length] in *; lia).
      replace (Num (s :: steps) - 1 + 1 >=? Num (s :: steps)) with true
        by (symmetry; rewrite Z.geb_leb; apply Z.leb_le; lia).
      rewrite orb_true_r. reflexivity.
Qed.

(** X16 on the example checklist of the header. *)
Lemma steps_in_order_complete_the_checklist_witness :
  exists reg',
    RunSteps "LoadWorld" LoadWorldSteps
      [("LoadWorld", {| Steps := LoadWorldSteps;
                        LastFinishedStepIndex := -1; bIsDone := false |})]
    = inr reg'
    /\ IsChecklistDone reg' "LoadWorld" = inr true.
Proof.
  assert (H : Num LoadWorldSteps <= 2147483647) by (vm_compute; discriminate).
  destruct (steps_in_order_complete_the_checklist
              [("LoadWorld", {| Steps := LoadWorldSteps;
                                LastFinishedStepIndex := -1;
                                bIsDone := false |})]
              "LoadWorld" "load-world-json"
              ["initialize-streaming-volumes"; "register-world-events"]
              eq_refl H) as (reg' & H1 & _ & H2 & _).
  exists reg'. split; [exact H1|exact H2].
Defined.

(** X17: a scope on a step that is not the next one is refused before its
    body runs, with the failure that names the last completed step: so it
    is when the checklist expects another step, and when no step is left. *)
Theorem scope_out_of_order_is_refused :
  forall reg name st t body,
    Find reg name = Some st ->
    WellFormed st ->
    (LastFinishedStepIndex st + 1 < Num (Steps st) ->
     SameName (nth (Z.to_nat (LastFinishedStepIndex st + 1)) (Steps st) "") t
     = false) ->
    exists last,
      GetLastCompletedStepName reg name = inr last
      /\ Scope name t body reg = inl (CannotBeginStep name t last).
Proof.
  intros reg name st t body Hf [Hl Hn] Hnext.
  assert (Hcan : CanBeginStep reg name t = inr false).
  { unfold CanBeginStep. rewrite Hf. rewrite Add32_succ by lia.
    destruct (Z_lt_ge_dec (LastFinishedStepIndex st + 1) (Num (Steps st)))
      as [Hlt|Hge].
    - replace ((LastFinishedStepIndex st + 1 <? 0)
               || (LastFinishedStepIndex st + 1 >=? Num (Steps st)))
        with false.
      + rewrite (Hnext Hlt). reflexivity.
      + symmetry. apply orb_false_iff. split; [apply Z.ltb_ge; lia|].
        rewrite Z.geb_leb. apply Z.leb_gt. lia.
    - replace (LastFinishedStepIndex st + 1 >=? Num (Steps st)) with true
        by (symmetry; rewrite Z.geb_leb; apply Z.leb_le; lia).
      rewrite orb_true_r. reflexivity. }
  assert (Hlast : exists last, GetLastCompletedStepName reg name = inr last).
  { unfold GetLastCompletedStepName. rewrite Hf.
    destruct (bIsDone st); [eauto|].
    destruct (LastFinishedStepIndex st =? INDEX_NONE); [eauto|].
    destruct ((LastFinishedStepIndex st >=? 0)
              && (LastFinishedStepIndex st <? Num (Steps st))); eauto. }
  destruct Hlast as [last Hlast]. exists last. split; [exact Hlast|].
  unfold Scope. rewrite Hcan, Hlast. reflexivity.
Qed.

(** X17 on the example checklist: its last step cannot be the first. *)
Lemma scope_out_of_order_is_refused_witness :
  Scope "LoadWorld" "register-world-events" (fun r => inr r)
    [("LoadWorld", {| Steps := LoadWorldSteps;
                      LastFinishedStepIndex := -1; bIsDone := false |})]
  = inl (CannotBeginStep "LoadWorld" "register-world-events" "not started").
Proof.
  assert (W : WellFormed {| Steps := LoadWorldSteps;
                            LastFinishedStepIndex := -1; bIsDone := false |})
    by (repeat split; vm_compute; discriminate).
  destruct (scope_out_of_order_is_refused
              [("LoadWorld", {| Steps := LoadWorldSteps;
                                LastFinishedStepIndex := -1;
                                bIsDone := false |})]
              "LoadWorld" _ "register-world-events" (fun r => inr r)
              eq_refl W (fun _ => eq_refl)) as (last & H1 & H2).
  injection H1 as <-. exact H2.
Defined.

Lemma Find_ResetAllForPie reg m :
  Find (ResetAllForPie reg) m = option_map Cleared (Find reg m).
Proof.
  induction reg as [|[k s0] reg IH]; [reflexivity|].
  cbn [ResetAllForPie map Find fst snd option_map].
  destruct (SameName k m); [reflexivity|exact IH].
Qed.

(** X18: resetting a checklist puts it back where registration left it,
    steps kept, nothing finished, not done, and leaves the other checklists
    alone; its first step can then begin again. The reset for a new
    session does the same to every checklist. *)
Theorem reset_restores_the_start :
  forall reg name st,
    Find reg name = Some st ->
    exists reg',
      ResetChecklist reg name = inr reg'
      /\ Find reg' name = Some (Cleared st)
      /\ (forall m, SameName name m = false -> Find reg' m = Find reg m)
      /\ (forall s rest, Steps st = s :: rest ->
                         CanBeginStep reg' name s = inr true)
      /\ (forall m, Find (ResetAllForPie reg) m
                    = option_map Cleared (Find reg m)).
Proof.
  intros reg name st Hf. unfold ResetChecklist, Contains. rewrite Hf.
  cbn [IsSet]. eexists. split; [reflexivity|].
  assert (Hc : Find (Modify reg name Cleared) name = Some (Cleared st))
    by (rewrite Find_Modify_same, Hf; reflexivity).
  split; [exact Hc|]. split; [|split].
  - intros m Hm. apply Find_Modify_other. exact Hm.
  - intros s rest Hs. unfold CanBeginStep. rewrite Hc.
    cbn [Cleared Steps LastFinishedStepIndex]. rewrite Hs.
    change (Add32 INDEX_NONE 1) with 0.
    replace (0 >=? Num (s :: rest)) with false.
    + cbn. apply f_equal. apply SameName_refl.
    + symmetry. rewrite Z.geb_leb. apply Z.leb_gt. unfold Num.
      cbn [List.length]. lia.
  - intros m. apply Find_ResetAllForPie.
Qed.

(** X18 on the example checklist after its first step. *)
Lemma reset_restores_the_start_witness :
  exists reg',
    ResetChecklist
      [("LoadWorld", {| Steps := LoadWorldSteps;
                        LastFinishedStepIndex := 0; bIsDone := false |})]
      "LoadWorld" = inr reg'
    /\ CanBeginStep reg' "LoadWorld" "load-world-json" = inr true.
Proof.
  destruct (reset_restores_the_start
              [("LoadWorld", {| Steps := LoadWorldSteps;
                                LastFinishedStepIndex := 0;
                                bIsDone := false |})]
              "LoadWorld" _ eq_refl) as (reg' & H & _ & _ & Hbegin & _).
  exists reg'. split; [exact H|]. exact (Hbegin _ _ eq_refl).
Defined.

Lemma AllWellFormed_Modify reg n st f :
  AllWellFormed reg ->
  Find reg n = Some st ->
  WellFormed (f st) ->
  AllWellFormed (Modify reg n f).
Proof.
  unfold AllWellFormed. intros Hall. revert st.
  induction Hall as [|[k s0] reg Hk Hall IH]; intros st Hf Hw; [constructor|].
  cbn [Find Modify] in *. destruct (SameName k n).
  - injection Hf as <-. constructor; assumption.
  - constructor; [exact Hk|]. eapply IH; eassumption.
Qed.

Lemma AllWellFormed_Find reg n st :
  AllWellFormed reg -> Find reg n = Some st -> WellFormed st.
Proof.
  unfold AllWellFormed. intros Hall.
  induction Hall as [|[k s0] reg Hk Hall IH]; intros Hf; [discriminate|].
  cbn [Find] in Hf. destruct (SameName k n).
  - injection Hf as <-. exact Hk.
  - apply IH. exact Hf.
Qed.

Lemma AllWellFormed_Add reg n st :
  AllWellFormed reg -> WellFormed st -> AllWellFormed (Add reg n st).
Proof.
  unfold AllWellFormed. intros Hall Hw.
  induction Hall as [|[k s0] reg Hk Hall IH]; cbn [Add].
  - constructor; [exact Hw|constructor].
  - destruct (SameName k n); constructor; assumption.
Qed.

(** X19: every operation of the registry keeps the index of the last
    finished step of every checklist between [INDEX_NONE] and the last
    index of its steps: registration, checking a step off, marking a
    checklist done, both resets, and a scope around a body that keeps it. *)
Theorem registry_stays_well_formed :
  forall reg,
    AllWellFormed reg ->
    (forall e name steps reg',
        Num steps <= 2147483647 ->
        Register e name steps reg = inr reg' -> AllWellFormed reg')
    /\ (forall name t reg',
           CheckStep reg name t = inr reg' -> AllWellFormed reg')
    /\ (forall name reg',
           SetChecklistDone reg name = inr reg' -> AllWellFormed reg')
    /\ (forall name reg',
           ResetChecklist reg name = inr reg' -> AllWellFormed reg')
    /\ AllWellFormed (ResetAllForPie reg)
    /\ (forall name t body reg',
           (forall r r', AllWellFormed r -> body r = inr r' ->
                         AllWellFormed r') ->
           Scope name t body reg = inr reg' -> AllWellFormed reg').
Proof.
  intros reg Hall.
  assert (Hdone : forall r name r',
             AllWellFormed r -> SetChecklistDone r name = inr r' ->
             AllWellFormed r').
  { intros r name r' Hr H. unfold SetChecklistDone in H.
    destruct (Find r name) as [st|] eqn:Hf; [|discriminate].
    injection H as <-. eapply AllWellFormed_Modify; [exact Hr|exact Hf|].
    exact (AllWellFormed_Find _ _ _ Hr Hf). }
  assert (Hstep : forall r name t r',
             AllWellFormed r -> CheckStep r name t = inr r' ->
             AllWellFormed r').
  { intros r name t r' Hr H. unfold CheckStep in H.
    destruct (Find r name) as [st|] eqn:Hf; [|discriminate].
    destruct (AllWellFormed_Find _ _ _ Hr Hf) as [Hl Hn].
    rewrite Add32_succ in H by lia.
    destruct ((LastFinishedStepIndex st + 1 <? 0)
              || (LastFinishedStepIndex st + 1 >=? Num (Steps st))) eqn:Ein;
      [discriminate|].
    apply orb_false_iff in Ein. destruct Ein as [_ Ein].
    rewrite Z.geb_leb in Ein. apply Z.leb_gt in Ein.
    destruct (negb (SameName _ t)); [discriminate|].
    assert (Hmod : AllWellFormed
                     (Modify r name
                        (fun St => {| Steps := Steps St;
                                      LastFinishedStepIndex :=
                                        Add32 (LastFinishedStepIndex St) 1;
                                      bIsDone := bIsDone St |}))).
    { eapply AllWellFormed_Modify; [exact Hr|exact Hf|].
      split; cbn [Steps LastFinishedStepIndex];
        [rewrite Add32_succ by lia; lia|exact Hn]. }
    destruct (LastFinishedStepIndex st + 1 =? Num (Steps st) - 1).
    - eapply Hdone; eassumption.
    - injection H as <-. exact Hmod. }
  split; [|split; [|split; [|split; [|split]]]].
  - intros e name steps reg' Hn H. unfold Register in H.
    destruct (Contains reg name); [injection H as <-; exact Hall|].
    destruct (if e then _ else _); [discriminate|].
    injection H as <-. apply AllWellFormed_Add; [exact Hall|].
    split; cbn [Steps LastFinishedStepIndex]; [|exact Hn].
    pose proof (Num_nonneg steps). unfold INDEX_NONE. lia.
  - intros name t reg' H. eapply Hstep; eassumption.
  - intros name reg' H. eapply Hdone; eassumption.
  - intros name reg' H. unfold ResetChecklist, Contains in H.
    destruct (Find reg name) as [st|] eqn:Hf; [|discriminate].
    injection H as <-. eapply AllWellFormed_Modify; [exact Hall|exact Hf|].
    destruct (AllWellFormed_Find _ _ _ Hall Hf) as [Hl Hn].
    split; cbn [Cleared Steps LastFinishedStepIndex]; [|exact Hn].
    unfold INDEX_NONE. lia.
  - unfold AllWellFormed, ResetAllForPie in *. rewrite Forall_map.
    eapply Forall_impl; [|exact Hall]. intros [k st] [Hl Hn].
    split; cbn [Cleared Steps LastFinishedStepIndex snd fst]; [|exact Hn].
    cbn [snd] in Hl. unfold INDEX_NONE. lia.
  - intros name t body reg' Hbody H. unfold Scope in H.
    destruct (CanBeginStep reg name t) as [f|[|]]; [discriminate| |].
    + destruct (body reg) as [f|r] eqn:Eb; [discriminate|].
      eapply Hstep; [|exact H]. eapply Hbody; eassumption.
    + destruct (GetLastCompletedStepName reg name); discriminate.
Qed.

(** X19 on the example checklist: checking off its first step. *)
Lemma registry_stays_well_formed_witness :
  AllWellFormed
    [("LoadWorld", {| Steps := LoadWorldSteps;
                      LastFinishedStepIndex := 0; bIsDone := false |})].
Proof.
  assert (W : AllWellFormed
                [("LoadWorld", {| Steps := LoadWorldSteps;
                                  LastFinishedStepIndex := -1;
                                  bIsDone := false |})])
    by (repeat constructor; vm_compute; discriminate).
  destruct (registry_stays_well_formed _ W) as (_ & H & _).
  exact (H "LoadWorld" "load-world-json" _ eq_refl).
Defined.


Lemma IndexOfByKey_from steps t from :
  IndexOfByKey steps t from = INDEX_NONE \/ from <= IndexOfByKey steps t from.
Proof.
  revert from. induction steps as [|s steps IH]; intros from; cbn.
  - left. reflexivity.
  - destruct (SameName s t); [right; lia|].
    destruct (IH (from + 1)) as [H|H]; [left; exact H|right; lia].
Qed.

Lemma IndexOfByKey_firstn steps t :
  forall from k,
    0 <= from ->
    negb (IndexOfByKey steps t from =? INDEX_NONE)
    && (IndexOfByKey steps t from <? from + Z.of_nat k)
    = existsb (fun x => SameName x t) (firstn k steps).
Proof.
  induction steps as [|s steps IH]; intros from k Hfrom.
  - rewrite firstn_nil. reflexivity.
  - cbn [IndexOfByKey]. destruct k as [|k].
    + cbn [firstn existsb]. rewrite Z.add_0_r.
      destruct (SameName s t).
      * rewrite Z.ltb_irrefl. apply andb_false_r.
      * destruct (IndexOfByKey_from steps t (from + 1)) as [H|H].
        -- rewrite H. reflexivity.
        -- replace (IndexOfByKey steps t (from + 1) <? from) with false
             by (symmetry; apply Z.ltb_ge; lia).
           apply andb_false_r.
    + cbn [firstn existsb]. destruct (SameName s t).
      * replace (from =? INDEX_NONE) with false
          by (symmetry; apply Z.eqb_neq; unfold INDEX_NONE; lia).
        replace (from <? from + Z.of_nat (S k)) with true
          by (symmetry; apply Z.ltb_lt; lia).
        reflexivity.
      * cbn [orb]. rewrite <- (IH (from + 1) k) by lia.
        replace (from + Z.of_nat (S k)) with (from + 1 + Z.of_nat k) by lia.
        reflexivity.
Qed.

Lemma IndexOfByKey_found steps t from :
  0 <= from ->
  negb (IndexOfByKey steps t from =? INDEX_NONE)
  = existsb (fun x => SameName x t) steps.
Proof.
  revert from. induction steps as [|s steps IH]; intros from Hfrom;
    [reflexivity|].
  cbn [IndexOfByKey existsb]. destruct (SameName s t).
  - replace (from =? INDEX_NONE) with false
      by (symmetry; apply Z.eqb_neq; unfold INDEX_NONE; lia).
    reflexivity.
  - apply IH. lia.
Qed.

(** X20: a step counts as done exactly when its name is among the steps
    finished so far, that is among the first [LastFinishedStepIndex + 1]
    steps of the checklist; once the checklist is marked done, every one
    of its steps counts as done, finished or not. A name that is not a
    step of the checklist never does. *)
Theorem step_done_iff_among_finished :
  forall reg name st t,
    Find reg name = Some st ->
    WellFormed st ->
    IsStepDone reg name t
    = inr (existsb (fun x => SameName x t)
             (if bIsDone st then Steps st
              else firstn (Z.to_nat (LastFinishedStepIndex st + 1))
                     (Steps st))).
Proof.
  intros reg name st t Hf [Hl Hn]. unfold IsStepDone. rewrite Hf.
  pose proof (IndexOfByKey_found (Steps st) t 0 (Z.le_refl 0)) as Hfound.
  pose proof (IndexOfByKey_firstn (Steps st) t 0
                (Z.to_nat (LastFinishedStepIndex st + 1)) (Z.le_refl 0))
    as Hfirst.
  rewrite Z2Nat.id, Z.add_0_l in Hfirst by lia.
  destruct (IndexOfByKey (Steps st) t 0 =? INDEX_NONE) eqn:Enone.
  - cbn [negb] in Hfound. cbn [negb andb] in Hfirst.
    destruct (bIsDone st); rewrite <- ?Hfound, <- ?Hfirst; reflexivity.
  - cbn [negb] in Hfound. cbn [negb andb] in Hfirst.
    destruct (bIsDone st).
    + rewrite orb_true_r, <- Hfound. reflexivity.
    + rewrite orb_false_r, <- Hfirst. apply f_equal.
      destruct (LastFinishedStepIndex st =? INDEX_NONE) eqn:El.
      * apply Z.eqb_eq in El. rewrite El. cbn [negb andb].
        apply Z.eqb_neq in Enone.
        destruct (IndexOfByKey_from (Steps st) t 0) as [H|H];
          [contradiction|].
        symmetry. apply Z.ltb_ge. unfold INDEX_NONE. lia.
      * cbn [negb andb].
        destruct (Z.leb_spec (IndexOfByKey (Steps st) t 0)
                    (LastFinishedStepIndex st));
          symmetry; [apply Z.ltb_lt|apply Z.ltb_ge]; lia.
Qed.

(** X20 on the example checklist after its first step. *)
Lemma step_done_iff_among_finished_witness :
  IsStepDone
    [("LoadWorld", {| Steps := LoadWorldSteps;
                      LastFinishedStepIndex := 0; bIsDone := false |})]
    "LoadWorld" "Load-World-Json" = inr true
  /\ IsStepDone
       [("LoadWorld", {| Steps := LoadWorldSteps;
                         LastFinishedStepIndex := 0; bIsDone := false |})]
       "LoadWorld" "register-world-events" = inr false.
Proof.
  assert (W : WellFormed {| Steps := LoadWorldSteps;
                            LastFinishedStepIndex := 0; bIsDone := false |})
    by (repeat split; vm_compute; discriminate).
  split.
  - exact (step_done_iff_among_finished
             [("LoadWorld", {| Steps := LoadWorldSteps;
                               LastFinishedStepIndex := 0;
                               bIsDone := false |})]
             "LoadWorld" _ "Load-World-Json" eq_refl W).
  - exact (step_done_iff_among_finished
             [("LoadWorld", {| Steps := LoadWorldSteps;
                               LastFinishedStepIndex := 0;
                               bIsDone := false |})]
             "LoadWorld" _ "register-world-events" eq_refl W).
Defined.

End ChecklistFacts.
